(** * Schema code generation of the Triplit CLI

    A shallow embedding of
    [packages/cli/src/commands/migrate/codegen.ts]: the functions that turn
    a JSON description of a schema into the text of a [schema.ts] module.

    Beside it stand the asynchronous generator helpers of
    [packages/db/src/utils/generator.ts] and the file helpers of
    [packages/cli/src/filesystem.ts], which run on Node's [path] and [fs].

    The generator is a pure function over JSON-like data that either
    returns a string or throws.  Strings are [string], arrays are lists,
    objects are association lists in enumeration order (the order in which
    [for ... in], [Object.entries] and [Object.keys] visit the keys, which
    [ownEntries] gives from the order of insertion), and a [throw] is the
    left injection of a sum. *)

From Stdlib Require Import String Ascii List ZArith Bool Arith.
From Stdlib Require Import DecimalString DecimalZ DecimalPos Lia.
From Stdlib Require Import Permutation Sorted.
Import ListNotations.
Open Scope string_scope.
Set Warnings "-register-all".

(* ===================================================================== *)
(** ** JavaScript values *)
(* ===================================================================== *)

Module JS.

(** The runtime values the generator can meet in schema JSON.  A number is
    an integer here, one that a double holds exactly and that JavaScript
    prints as a plain decimal numeral (magnitude below 10^21).  Fractions,
    NaN and the infinities are outside this model. *)
Inductive value : Type :=
| Undefined
| Null
| Bool (b : bool)
| Num (n : Z)
| Str (s : string)
| Arr (items : list value)
| Obj (fields : list (string * value)).

(** The double quote, the line feed and the backslash as one-character
    strings. *)
Definition dquote : string := String "034"%char EmptyString.
Definition newline : string := String "010"%char EmptyString.
Definition backslash : string := String "092"%char EmptyString.

Definition bool_to_string (b : bool) : string :=
  if b then "true" else "false".

(** [Number.prototype.toString] on a safe integer, that is one from
    -(2^53 - 1) to 2^53 - 1: the decimal numeral.  Past them JavaScript
    prints the shortest digits that give the double back, and an exponent
    from 10^21 on, which this function does not; a statement about the
    digits of a number holds for the safe integers. *)
Definition number_to_string (n : Z) : string :=
  NilZero.string_of_int (Z.to_int n).

(** [ToBoolean]: what [if (v)], [v ? a : b] and [v && w] test. *)
Definition truthy (v : value) : bool :=
  match v with
  | Undefined | Null => false
  | Bool b => b
  | Num n => negb (n =? 0)%Z
  | Str s => negb (s =? "")
  | Arr _ | Obj _ => true
  end.

(** [typeof v === 'object' && v !== null] *)
Definition is_object (v : value) : bool :=
  match v with
  | Arr _ | Obj _ => true
  | _ => false
  end.

(** [ToString], the conversion a template literal applies to [${v}].  An
    array prints its elements joined by commas, with nothing for a null or
    undefined element; a plain object prints as [[object Object]]. *)
Fixpoint ToString (v : value) : string :=
  match v with
  | Undefined => "undefined"
  | Null => "null"
  | Bool b => bool_to_string b
  | Num n => number_to_string n
  | Str s => s
  | Arr items =>
      String.concat ","
        (map (fun x => match x with
                       | Undefined | Null => ""
                       | _ => ToString x
                       end) items)
  | Obj _ => "[object Object]"
  end.

(** Property read [o[k]] on an object; a key that is not there reads as
    [undefined]. *)
Fixpoint lookup (fields : list (string * value)) (k : string) : value :=
  match fields with
  | [] => Undefined
  | (k', v) :: rest => if k' =? k then v else lookup rest k
  end.

(** [v.k] for the two keys the generator destructures; an array has
    neither. *)
Definition get (v : value) (k : string) : value :=
  match v with
  | Obj fields => lookup fields k
  | _ => Undefined
  end.

(** [v === s] for a string constant [s]. *)
Definition equals_string (v : value) (s : string) : bool :=
  match v with
  | Str t => t =? s
  | _ => false
  end.

(** [names.includes(v)] for an array of string constants. *)
Definition includes_value (names : list string) (v : value) : bool :=
  existsb (equals_string v) names.

(** [names.includes(s)] *)
Definition includes (names : list string) (s : string) : bool :=
  existsb (String.eqb s) names.

(** *** JSON.stringify *)

Definition hex_digit (n : nat) : string :=
  String.substring n 1 "0123456789abcdef".

(** One code unit inside a JSON string literal. *)
Definition quote_char (c : ascii) : string :=
  let n := nat_of_ascii c in
  if Nat.eqb n 34 then backslash ++ dquote
  else if Nat.eqb n 92 then backslash ++ backslash
  else if Nat.eqb n 8 then backslash ++ "b"
  else if Nat.eqb n 9 then backslash ++ "t"
  else if Nat.eqb n 10 then backslash ++ "n"
  else if Nat.eqb n 12 then backslash ++ "f"
  else if Nat.eqb n 13 then backslash ++ "r"
  else if Nat.ltb n 32
       then backslash ++ "u00" ++ hex_digit (n / 16) ++ hex_digit (n mod 16)
  else String c EmptyString.

Fixpoint quote_chars (s : string) : string :=
  match s with
  | EmptyString => EmptyString
  | String c rest => quote_char c ++ quote_chars rest
  end.

(** [QuoteJSONString] *)
Definition quote (s : string) : string :=
  dquote ++ quote_chars s ++ dquote.

(** Brackets around the serialized members, as [SerializeJSONObject] and
    [SerializeJSONArray] lay them out: nothing between the brackets when
    there is no member, one line when [gap] is empty, one member per line
    otherwise. *)
Definition bracketed (opening closing gap stepback : string)
    (partial : list string) : string :=
  match partial with
  | [] => opening ++ closing
  | _ =>
      if gap =? "" then opening ++ String.concat "," partial ++ closing
      else
        let indent := stepback ++ gap in
        opening ++ newline ++ indent
        ++ String.concat ("," ++ newline ++ indent) partial
        ++ newline ++ stepback ++ closing
  end.

(** [SerializeJSONProperty]: [None] is the [undefined] result, which drops
    the member of an object and prints as [null] in an array. *)
Fixpoint serialize (gap indent : string) (v : value) : option string :=
  match v with
  | Undefined => None
  | Null => Some "null"
  | Bool b => Some (bool_to_string b)
  | Num n => Some (number_to_string n)
  | Str s => Some (quote s)
  | Arr items =>
      Some (bracketed "[" "]" gap indent
              (map (fun x => match serialize gap (indent ++ gap) x with
                             | Some t => t
                             | None => "null"
                             end) items))
  | Obj fields =>
      Some (bracketed "{" "}" gap indent
              (flat_map (fun kv =>
                           match serialize gap (indent ++ gap) (snd kv) with
                           | Some t =>
                               [quote (fst kv) ++ ":"
                                ++ (if gap =? "" then "" else " ") ++ t]
                           | None => []
                           end) fields))
  end.

(** [JSON.stringify(v)] *)
Definition stringify (v : value) : option string := serialize "" "" v.

(** [JSON.stringify(v, null, 2)] *)
Definition stringify2 (v : value) : option string := serialize "  " "" v.

(** [`${JSON.stringify(v)}`] *)
Definition stringify_text (v : value) : string :=
  match stringify v with
  | Some t => t
  | None => "undefined"
  end.

End JS.

(* ===================================================================== *)
(** ** Thrown errors *)
(* ===================================================================== *)

(** The generator throws plain [Error] objects that differ in their
    message only; [TypeError] is what the runtime raises when the code
    destructures [undefined] or calls a method that is not there. *)
Inductive Error : Type :=
| InvalidType (type : string)
| InvalidDefaultFunctionName
| InvalidValue (value : JS.value)
| TypeError.

Definition message (e : Error) : string :=
  match e with
  | InvalidType type => "Invalid type: " ++ type
  | InvalidDefaultFunctionName => "Invalid default function name"
  | InvalidValue value => "Invalid value: " ++ JS.ToString value
  | TypeError => "TypeError"
  end.

Definition completion (A : Type) : Type := (Error + A)%type.

Definition ret {A : Type} (a : A) : completion A := inr a.
Definition throw {A : Type} (e : Error) : completion A := inl e.

Definition bind {A B : Type} (c : completion A) (k : A -> completion B)
    : completion B :=
  match c with
  | inl e => inl e
  | inr a => k a
  end.

Notation "x <- c ;; k" := (bind c (fun x => k))
  (at level 61, c at next level, right associativity).

(** [xs.map(f)] for an [f] that may throw: elements are visited from left
    to right and the first throw ends the call. *)
Fixpoint mapM {A B : Type} (f : A -> completion B) (xs : list A)
    : completion (list B) :=
  match xs with
  | [] => ret []
  | x :: rest =>
      y <- f x ;;
      ys <- mapM f rest ;;
      ret (y :: ys)
  end.

(* ===================================================================== *)
(** ** Value encoder *)
(* ===================================================================== *)

(** [UserTypeOptions]: [nullable] is a boolean when set; an absent
    [default] reads as [undefined]. *)
Record UserTypeOptions : Type := {
  nullable : option bool;
  default : JS.value
}.

Definition valueToJS (value : JS.value) : completion string :=
  match value with
  | JS.Str s => ret (JS.dquote ++ s ++ JS.dquote)
  | JS.Num n => ret (JS.number_to_string n)
  | JS.Bool b => ret (JS.bool_to_string b)
  | JS.Null => ret "null"
  | _ => throw (InvalidValue value)
  end.

Definition defaultValueToString (defaultValue : JS.value) : completion string :=
  if JS.is_object defaultValue then
    let func := JS.get defaultValue "func" in
    let args := JS.get defaultValue "args" in
    if negb (JS.includes_value ["now"; "uuid"] func)
    then throw InvalidDefaultFunctionName
    else
      parsedArgs <-
        (if JS.truthy args then
           match args with
           | JS.Arr items =>
               texts <- mapM valueToJS items ;;
               ret (String.concat ", " texts)
           | _ => throw TypeError
           end
         else ret "") ;;
      ret ("S.Default." ++ JS.ToString func ++ "(" ++ parsedArgs ++ ")")
  else valueToJS defaultValue.

(** The [result] array of [valueOptionsToString] before it is joined. *)
Definition valueOptionsEntries (options : UserTypeOptions)
    : completion (list string) :=
  let result0 :=
    match nullable options with
    | Some b => ["nullable: " ++ JS.bool_to_string b]
    | None => []
    end in
  match default options with
  | JS.Undefined => ret result0
  | defaultValue =>
      text <- defaultValueToString defaultValue ;;
      ret (List.app result0 ["default: " ++ text])
  end.

Definition valueOptionsToString (options : UserTypeOptions)
    : completion string :=
  entries <- valueOptionsEntries options ;;
  match entries with
  | [] => ret ""
  | _ => ret ("{" ++ String.concat ", " entries ++ "}")
  end.

(** A [{ func, args }] default as the schema JSON holds it. *)
Definition FunctionCall (name : string) (args : list JS.value) : JS.value :=
  JS.Obj [("func", JS.Str name); ("args", JS.Arr args)].

(* ===================================================================== *)
(** ** Attribute encoder *)
(* ===================================================================== *)

(** One filter of a relation query: [[field, operator, value]]. *)
Definition WhereClause : Type := (string * string * JS.value)%type.

(** What is left of a relation query once [collectionName] is taken out
    ([const { collectionName, ...queryParams } = query]).  A key that the
    object does not have is [None]; [others] are the keys besides [where],
    [limit] and [order], which [Object.keys] counts and [subQueryToString]
    never reads. *)
Record QueryParams : Type := {
  where_ : option (list WhereClause);
  limit : option Z;
  order : option (list (string * string));
  others : list (string * JS.value)
}.

Record Query : Type := {
  collectionName : string;
  queryParams : QueryParams
}.

(** [AttributeDefinition], by the shape of the object.  [ValueAttribute]
    is an object holding [type] and [options] and nothing else; the other
    three carry the tags ['set'], ['record'] and ['query']. *)
Inductive AttributeDefinition : Type :=
| ValueAttribute (type : string) (options : UserTypeOptions)
| SetAttribute (items : AttributeDefinition) (options : UserTypeOptions)
| RecordAttribute (properties : list (string * AttributeDefinition))
                  (optional : option (list string))
| QueryAttribute (query : Query) (cardinality : string).

(** [attribute.type] *)
Definition type_of (attribute : AttributeDefinition) : string :=
  match attribute with
  | ValueAttribute type _ => type
  | SetAttribute _ _ => "set"
  | RecordAttribute _ _ => "record"
  | QueryAttribute _ _ => "query"
  end.

Definition where_value (clauses : list WhereClause) : JS.value :=
  JS.Arr (map (fun c => JS.Arr [JS.Str (fst (fst c)); JS.Str (snd (fst c));
                                snd c]) clauses).

Definition order_value (pairs : list (string * string)) : JS.value :=
  JS.Arr (map (fun p => JS.Arr [JS.Str (fst p); JS.Str (snd p)]) pairs).

(** [Object.keys(queryParams)] *)
Definition keys (params : QueryParams) : list string :=
  List.app (match where_ params with Some _ => ["where"] | None => [] end)
    (List.app (match limit params with Some _ => ["limit"] | None => [] end)
       (List.app (match order params with Some _ => ["order"] | None => [] end)
          (map fst (others params)))).

Definition whereString (subquery : QueryParams) : string :=
  match where_ subquery with
  | Some clauses => "where: " ++ JS.stringify_text (where_value clauses)
  | None => ""
  end.

Definition limitString (subquery : QueryParams) : string :=
  match limit subquery with
  | Some n =>
      if JS.truthy (JS.Num n) then "limit: " ++ JS.number_to_string n else ""
  | None => ""
  end.

Definition orderString (subquery : QueryParams) : string :=
  match order subquery with
  | Some pairs => "order: " ++ JS.stringify_text (order_value pairs)
  | None => ""
  end.

(** The array of [subQueryToString] after [.filter((str) => str)]. *)
Definition subQueryMembers (subquery : QueryParams) : list string :=
  filter (fun str => JS.truthy (JS.Str str))
    [whereString subquery; limitString subquery; orderString subquery].

Definition subQueryToString (subquery : QueryParams) : string :=
  "{" ++ String.concat ", " (subQueryMembers subquery) ++ "}".

Definition isRelationById (query : Query) : bool :=
  JS.truthy (JS.Str (collectionName query))
  && match where_ (queryParams query) with
     | Some [(field, operator, _)] => (field =? "id") && (operator =? "=")
     | _ => false
     end
  && Nat.eqb (List.length (keys (queryParams query))) 1.

(** [queryParams.where[0][2]], read only when [isRelationById] holds. *)
Definition idValue (params : QueryParams) : JS.value :=
  match where_ params with
  | Some ((_, _, v) :: _) => v
  | _ => JS.Undefined
  end.

Definition wrapOptional (type : string) (optional : bool) : string :=
  if optional then "S.Optional(" ++ type ++ ")" else type.

Definition excludeOptional : list string := ["query"].

(** [keys?.includes(key) ?? false] *)
Definition isOptional (keys : option (list string)) (key : string) : bool :=
  match keys with
  | Some ks => JS.includes ks key
  | None => false
  end.

(** [schemaItemToString({ attribute, optional })]; a missing [optional]
    is passed as [false], which is what [optional ?? false] makes of it. *)
Fixpoint schemaItemToString (attribute : AttributeDefinition)
    (optional : bool) : completion string :=
  result <-
    match attribute with
    | ValueAttribute type options =>
        if type =? "string" then
          o <- valueOptionsToString options ;; ret ("S.String(" ++ o ++ ")")
        else if type =? "boolean" then
          o <- valueOptionsToString options ;; ret ("S.Boolean(" ++ o ++ ")")
        else if type =? "number" then
          o <- valueOptionsToString options ;; ret ("S.Number(" ++ o ++ ")")
        else if type =? "date" then
          o <- valueOptionsToString options ;; ret ("S.Date(" ++ o ++ ")")
        else if JS.includes ["set"; "record"; "query"] type then
          (* no [items], [properties] or [query] to destructure *)
          throw TypeError
        else throw (InvalidType type)
    | SetAttribute items options =>
        i <- schemaItemToString items false ;;
        o <- valueOptionsToString options ;;
        ret ("S.Set(" ++ i ++ "," ++ o ++ ")")
    | RecordAttribute properties keys =>
        entries <-
          (fix entries (l : list (string * AttributeDefinition))
             : completion (list string) :=
             match l with
             | [] => ret []
             | (key, value) :: rest =>
                 text <- schemaItemToString value (isOptional keys key) ;;
                 texts <- entries rest ;;
                 ret (("'" ++ key ++ "': " ++ text) :: texts)
             end) properties ;;
        ret ("S.Record({" ++ String.concat ("," ++ JS.newline) entries ++ "})")
    | QueryAttribute query cardinality =>
        let collectionName := collectionName query in
        let queryParams := queryParams query in
        if cardinality =? "one" then
          if isRelationById query then
            ret ("S.RelationById('" ++ collectionName ++ "', '"
                 ++ JS.ToString (idValue queryParams) ++ "')")
          else
            ret ("S.RelationOne('" ++ collectionName ++ "',"
                 ++ subQueryToString queryParams ++ ")")
        else
          ret ("S.RelationMany('" ++ collectionName ++ "',"
               ++ subQueryToString queryParams ++ ")")
    end ;;
  ret (if negb (JS.includes excludeOptional (type_of attribute))
       then wrapOptional result optional
       else result).

(* ===================================================================== *)
(** ** Collection and module assembly *)
(* ===================================================================== *)

(** [CollectionDefinition['schema']]: the root properties and the keys
    among them that are optional. *)
Record CollectionSchema : Type := {
  properties : list (string * AttributeDefinition);
  optional : option (list string)
}.

Record CollectionDefinition : Type := {
  schema : CollectionSchema;
  rules : JS.value
}.

Definition CollectionsDefinition : Type :=
  list (string * CollectionDefinition).

(** What [schemaToJSON] hands over; [collections] may be missing. *)
Record SchemaJSON : Type := {
  version : Z;
  collections : option CollectionsDefinition
}.

Definition indentation : string := "  ".

(** A loop [for (key in obj) { result += ... }] over the entries of [obj]:
    [body] takes an entry and the text so far and gives the text after the
    iteration, or throws and ends the loop. *)
Fixpoint forIn {A : Type} (entries : list A)
    (body : A -> string -> completion string) (result : string)
    : completion string :=
  match entries with
  | [] => ret result
  | entry :: rest =>
      result' <- body entry result ;;
      forIn rest body result'
  end.

(** [s.split(newline)] *)
Fixpoint split_lines (s : string) : list string :=
  match s with
  | EmptyString => [EmptyString]
  | String c rest =>
      match split_lines rest with
      | [] => [String c EmptyString]
      | line :: lines =>
          if Ascii.eqb c "010"%char then EmptyString :: line :: lines
          else String c line :: lines
      end
  end.

(** [s.slice(0, -2)] *)
Definition slice_0_minus2 (s : string) : string :=
  String.substring 0 (String.length s - 2) s.

(** White space as [trim] sees it, among the one-byte characters. *)
Definition is_white_space (c : ascii) : bool :=
  let n := nat_of_ascii c in
  (Nat.leb 9 n && Nat.leb n 13) || Nat.eqb n 32.

Fixpoint trimStart (s : string) : string :=
  match s with
  | EmptyString => EmptyString
  | String c rest => if is_white_space c then trimStart rest else s
  end.

Fixpoint trimEnd (s : string) : string :=
  match s with
  | EmptyString => EmptyString
  | String c rest =>
      match trimEnd rest with
      | EmptyString => if is_white_space c then EmptyString
                       else String c EmptyString
      | kept => String c kept
      end
  end.

Definition trim (s : string) : string := trimEnd (trimStart s).

Fixpoint generateAttributeSchema (path : list string)
    (attribute : AttributeDefinition) (optional : bool) (indent : string)
    : completion string :=
  match path with
  | [] => schemaItemToString attribute optional
  | head :: tail =>
      match tail with
      | [] =>
          text <- schemaItemToString attribute optional ;;
          ret (indent ++ "'" ++ head ++ "': " ++ text ++ "," ++ JS.newline)
      | _ =>
          let result := "" in
          let result :=
            result ++ indent ++ "'" ++ head ++ "': {" ++ JS.newline in
          nested <- generateAttributeSchema tail attribute optional
                      (indent ++ indentation) ;;
          let result := result ++ nested in
          let result := result ++ indent ++ "}," ++ JS.newline in
          ret result
      end
  end.

Definition generateAttributesSection (schema : CollectionSchema)
    (indent : string) : completion string :=
  let result := "" in
  let result := result ++ indent ++ "schema: S.Schema({" ++ JS.newline in
  result <-
    forIn (properties schema)
      (fun entry result =>
         let path := fst entry in
         let itemInfo := snd entry in
         let optional := isOptional (optional schema) path in
         text <- generateAttributeSchema [path] itemInfo optional
                   (indent ++ indentation) ;;
         ret (result ++ text))
      result ;;
  let result := result ++ indent ++ "})," ++ JS.newline in
  ret result.

Definition generateRulesSection (rules : JS.value) (indent : string)
    : completion string :=
  let result := "" in
  if JS.truthy rules then
    match JS.stringify2 rules with
    | Some json =>
        ret (result ++ indent ++ "rules: "
             ++ String.concat (JS.newline ++ indent) (split_lines json))
    | None => throw TypeError  (* [undefined.split] *)
    end
  else ret result.

Definition collectionsDefinitionToFileContent
    (collectionsDefinition : CollectionsDefinition) (indent : string)
    : completion string :=
  let result := "{" ++ JS.newline in
  result <-
    forIn collectionsDefinition
      (fun entry result =>
         let collectionKey := fst entry in
         let result := result ++ indent in
         let result := result ++ "'" ++ collectionKey ++ "': {" ++ JS.newline in
         let attributes := schema (snd entry) in
         let rules := rules (snd entry) in
         section <- generateAttributesSection attributes
                      (indent ++ indentation) ;;
         let result := result ++ section in
         section <- generateRulesSection rules (indent ++ indentation) ;;
         let result := result ++ section in
         let result := result ++ indent ++ "}," ++ JS.newline in
         ret result)
      result ;;
  ret (result ++ slice_0_minus2 indent ++ "}").

Definition schemaFileContentFromJSON (schemaJSON : option SchemaJSON)
    : completion string :=
  let collections :=
    match schemaJSON with
    | Some json =>
        match collections json with
        | Some definition => definition
        | None => []
        end
    | None => []
    end in
  schemaContent <- collectionsDefinitionToFileContent collections indentation ;;
  let fileContent :=
    trim (JS.newline
          ++ "/**" ++ JS.newline
          ++ " * This file is auto-generated by the Triplit CLI." ++ JS.newline
          ++ " */ " ++ JS.newline
          ++ JS.newline
          ++ "import { Schema as S } from '@triplit/db';" ++ JS.newline
          ++ "export const schema = " ++ schemaContent ++ ";" ++ JS.newline
          ++ "      ")
    ++ JS.newline in
  ret fileContent.

(** [schemaToJSON] belongs to [@triplit/db] and is not among the sources of
    the generator; [schemaFileContentFromSchema] is given over any such
    conversion of a schema, or of [undefined], to that JSON. *)
Section FromSchema.

Variable Schema : Type.
Variable schemaToJSON : option Schema -> option SchemaJSON.

Definition schemaFileContentFromSchema (schema : option Schema)
    : completion string :=
  let schemaJSON := schemaToJSON schema in
  schemaFileContentFromJSON schemaJSON.

End FromSchema.

Arguments schemaFileContentFromSchema {Schema} schemaToJSON schema.

(* ===================================================================== *)
(** ** Vocabulary of the statements *)
(* ===================================================================== *)

(** The values [valueToJS] is meant for: string, number, boolean, null. *)
Definition isLiteral (v : JS.value) : bool :=
  match v with
  | JS.Str _ | JS.Num _ | JS.Bool _ | JS.Null => true
  | _ => false
  end.

(** One entry of the [.map] over [Object.entries(attribute.properties)]. *)
Definition recordEntry (keys : option (list string))
    (entry : string * AttributeDefinition) : completion string :=
  text <- schemaItemToString (snd entry) (isOptional keys (fst entry)) ;;
  ret ("'" ++ fst entry ++ "': " ++ text).

(** What the [switch] of [schemaItemToString] leaves in [result], before
    the optional marker is considered. *)
Definition schemaItemBody (attribute : AttributeDefinition)
    : completion string :=
  match attribute with
  | ValueAttribute type options =>
      if type =? "string" then
        o <- valueOptionsToString options ;; ret ("S.String(" ++ o ++ ")")
      else if type =? "boolean" then
        o <- valueOptionsToString options ;; ret ("S.Boolean(" ++ o ++ ")")
      else if type =? "number" then
        o <- valueOptionsToString options ;; ret ("S.Number(" ++ o ++ ")")
      else if type =? "date" then
        o <- valueOptionsToString options ;; ret ("S.Date(" ++ o ++ ")")
      else if JS.includes ["set"; "record"; "query"] type then throw TypeError
      else throw (InvalidType type)
  | SetAttribute items options =>
      i <- schemaItemToString items false ;;
      o <- valueOptionsToString options ;;
      ret ("S.Set(" ++ i ++ "," ++ o ++ ")")
  | RecordAttribute properties keys =>
      entries <- mapM (recordEntry keys) properties ;;
      ret ("S.Record({" ++ String.concat ("," ++ JS.newline) entries ++ "})")
  | QueryAttribute query cardinality =>
      if cardinality =? "one" then
        if isRelationById query then
          ret ("S.RelationById('" ++ collectionName query ++ "', '"
               ++ JS.ToString (idValue (queryParams query)) ++ "')")
        else
          ret ("S.RelationOne('" ++ collectionName query ++ "',"
               ++ subQueryToString (queryParams query) ++ ")")
      else
        ret ("S.RelationMany('" ++ collectionName query ++ "',"
             ++ subQueryToString (queryParams query) ++ ")")
  end.

(** The text starts with the optional marker call. *)
Definition isWrapped (text : string) : bool :=
  String.prefix "S.Optional(" text.

(** The type tags that [schemaItemToString] has a case for. *)
Definition knownTypes : list string :=
  ["string"; "boolean"; "number"; "date"; "set"; "record"; "query"].

(** The query parameters [{ where: [["id", "=", V]] }] and nothing else. *)
Definition byIdParams (V : JS.value) : QueryParams :=
  {| where_ := Some [("id", "=", V)];
     limit := None; order := None; others := [] |}.

(** What one property of a collection's schema adds to the section. *)
Definition propertyText (schema : CollectionSchema) (indent : string)
    (entry : string * AttributeDefinition) : completion string :=
  generateAttributeSchema [fst entry] (snd entry)
    (isOptional (optional schema) (fst entry)) (indent ++ indentation).

(** What one collection adds to the module's object literal. *)
Definition collectionText (indent : string)
    (entry : string * CollectionDefinition) : completion string :=
  attributes <- generateAttributesSection (schema (snd entry))
                  (indent ++ indentation) ;;
  rulesText <- generateRulesSection (rules (snd entry))
                 (indent ++ indentation) ;;
  ret (indent ++ "'" ++ fst entry ++ "': {" ++ JS.newline
       ++ attributes ++ rulesText ++ indent ++ "}," ++ JS.newline).

(** The module text around the collections literal [content]. *)
Definition moduleText (content : string) : string :=
  "/**" ++ JS.newline
  ++ " * This file is auto-generated by the Triplit CLI." ++ JS.newline
  ++ " */ " ++ JS.newline
  ++ JS.newline
  ++ "import { Schema as S } from '@triplit/db';" ++ JS.newline
  ++ "export const schema = " ++ content ++ ";" ++ JS.newline.

(* ===================================================================== *)
(** ** Input the encoder accepts *)
(* ===================================================================== *)





(** A character that [JSON.stringify] escapes inside a string: the double
    quote, the backslash and the control characters. *)
Definition needsEscape (c : ascii) : bool :=
  let n := nat_of_ascii c in
  Nat.eqb n 34 || Nat.eqb n 92 || Nat.ltb n 32.

(** [indent] followed by [n] times the indentation unit. *)
Fixpoint indented (indent : string) (n : nat) : string :=
  match n with
  | O => indent
  | S m => indented (indent ++ indentation) m
  end.

(* ===================================================================== *)
(** ** Asynchronous generators ([packages/db/src/utils/generator.ts]) *)
(* ===================================================================== *)

Module Generator.

Section Iterators.

(** The reasons a promise may be rejected with. *)
Variable E : Type.

(** What [next()] resolves to: [{ value, done: false }] or a result with
    [done] set. *)
Inductive IteratorResult (T : Type) : Type :=
| Yield (value : T)
| Done.

Arguments Yield {T} value.
Arguments Done {T}.

(** An async iterable: [[Symbol.asyncIterator]()] makes an iterator in the
    state [start], and [next] takes the iterator from one state to the
    following one, resolving to a result or rejecting.  The calls of
    [next] come one after the other, as [for await] makes them. *)
Record AsyncIterable (T : Type) : Type := {
  St : Type;
  start : St;
  next : St -> (E + IteratorResult T) * St
}.

Arguments St {T} _.
Arguments start {T} _.
Arguments next {T} _ _.

(** The loop of [genToArr]: [fuel] bounds the calls of [next], and [None]
    is a loop that has not ended within them. *)
Fixpoint collect {T : Type} (fuel : nat) (generator : AsyncIterable T)
    (s : St generator) (arr : list T) : option (E + list T) :=
  match fuel with
  | O => None
  | S fuel' =>
      match next generator s with
      | (inl e, _) => Some (inl e)
      | (inr Done, _) => Some (inr arr)
      | (inr (Yield item), s') =>
          collect fuel' generator s' (List.app arr [item])
      end
  end.

Definition genToArr {T : Type} (fuel : nat) (generator : AsyncIterable T)
    : option (E + list T) :=
  collect fuel generator (start generator) [].

(** [arrToGen(array)]: [array] is the array, or the promise of one, which
    may be rejected.  [for await] over the array awaits every item, and so
    does [yield]: an item is [inr value] when it is a value that is no
    promise, or a promise that resolves to [value], and [inl e] when it is
    a promise rejected with [e].  A rejected item makes [next] reject, and
    after a rejection the generator is finished. *)
Definition arrToGen {T : Type} (array : E + list (E + T))
    : AsyncIterable T :=
  {| St := (E + list (E + T))%type;
     start := array;
     next := fun s =>
       match s with
       | inl e => (inl e, inr [])
       | inr [] => (inr Done, inr [])
       | inr (inl e :: _) => (inl e, inr [])
       | inr (inr item :: rest) => (inr (Yield item), inr rest)
       end |}.

(** [mapGen(iterable, cb)]: the iterator holds the inner iterator, [index]
    and the [state] object, which starts as [state0] (the empty object) and
    which [cb] may change; [cb] may throw. *)
Definition mapGen {T R C : Type} (iterable : AsyncIterable T)
    (cb : T -> nat -> C -> (E + R) * C) (state0 : C) : AsyncIterable R :=
  {| St := (St iterable * nat * C)%type;
     start := (start iterable, 0, state0);
     next := fun s =>
       let '(i, index, state) := s in
       match next iterable i with
       | (inl e, i') => (inl e, (i', index, state))
       | (inr Done, i') => (inr Done, (i', index, state))
       | (inr (Yield value), i') =>
           let (r, state') := cb value index state in
           (match r with
            | inl e => inl e
            | inr mapped => inr (Yield mapped)
            end, (i', S index, state'))
       end |}.

(** What [cb] makes of the items of a list, from [index] and [state] on,
    up to the first call that throws. *)
Fixpoint mapIndexed {T R C : Type} (cb : T -> nat -> C -> (E + R) * C)
    (index : nat) (state : C) (items : list T) : E + list R :=
  match items with
  | [] => inr []
  | item :: rest =>
      match cb item index state with
      | (inl e, _) => inl e
      | (inr mapped, state') =>
          match mapIndexed cb (S index) state' rest with
          | inl e => inl e
          | inr others => inr (mapped :: others)
          end
      end
  end.

End Iterators.

Arguments Yield {T} value.
Arguments Done {T}.
Arguments St {E T} _.
Arguments start {E T} _.
Arguments next {E T} _ _.
Arguments collect {E T} fuel generator s arr.
Arguments genToArr {E T} fuel generator.
Arguments arrToGen {E T} array.
Arguments mapGen {E T R C} iterable cb state0.
Arguments mapIndexed {E T R C} cb index state items.

End Generator.

(* ===================================================================== *)
(** ** Files of the CLI ([packages/cli/src/filesystem.ts]) *)
(* ===================================================================== *)

Module Filesystem.

(** What a call may throw. *)
Inductive Failure : Type :=
| FileMustBeTs                (* [Error('File must be a .ts file')] *)
| NodeTypeError               (* a [TypeError] of the runtime *)
| ReferenceError (name : string) (* an identifier that nothing binds *)
| External (reason : string). (* thrown by [fs], [JSON.parse], esbuild or
                                 an imported module *)

(** The options [bundleTsFile] hands to [esbuild.buildSync]. *)
Record BuildOptions : Type := {
  entryPoints : list string;
  outfile : string;
  bundle : bool;
  platform : string;
  target : string;
  format : string;
  tsconfig : option string
}.

(** What the functions of this file run on: Node's [path], [fs] and
    [process], esbuild and dynamic [import].  [World] is the state of the
    disk and of the process; a call that changes it gives the world after
    it, also when it throws.  [readJSON] is [readFileSync] followed by
    [JSON.parse]. *)
Record Host : Type := {
  World : Type;
  Imported : Type;
  path_join : string -> string -> string;
  path_dirname : string -> string;
  path_basename : string -> string -> string;
  path_root : string -> string;
  path_resolve : World -> string -> string;
  cwd : World -> string;
  dateNow : World -> Z;
  existsSync : World -> string -> bool;
  readJSON : World -> string -> Failure + JS.value;
  mkdirSync : string -> World -> World * (Failure + unit);
  writeFileSync : string -> string -> World -> World * (Failure + unit);
  rmSync : string -> World -> World * (Failure + unit);
  buildSync : BuildOptions -> World -> World * (Failure + unit);
  import : string -> World -> World * (Failure + Imported)
}.

(** [s.endsWith(suffix)] *)
Definition endsWith (s suffix : string) : bool :=
  Nat.leb (String.length suffix) (String.length s)
  && (String.substring (String.length s - String.length suffix)
        (String.length suffix) s =? suffix).

Section OnHost.

Variable h : Host.

(** A call on the world: the world after it and what it returned or
    threw; [None] is a call whose loop has not ended within the fuel. *)
Definition Call (A : Type) : Type :=
  World h -> option (World h * (Failure + A)).

Definition andThen {A B : Type} (c : Call A) (k : A -> Call B) : Call B :=
  fun w =>
    match c w with
    | None => None
    | Some (w', inl e) => Some (w', inl e)
    | Some (w', inr a) => k a w'
    end.

Definition lift {A : Type} (op : World h -> World h * (Failure + A))
    : Call A :=
  fun w => Some (op w).

(** [try { body } finally { cleanup }]: [cleanup] runs after [body] has
    returned or thrown; when [cleanup] throws, that is what is thrown. *)
Definition tryFinally {A : Type} (body : Call A)
    (cleanup : World h -> World h * (Failure + unit)) : Call A :=
  fun w =>
    match body w with
    | None => None
    | Some (w', r) =>
        match cleanup w' with
        | (w'', inl e) => Some (w'', inl e)
        | (w'', inr _) => Some (w'', r)
        end
    end.

(** The loop of [findClosestPackageDirectory]; [Some None] is the [null]
    it returns at the root. *)
Fixpoint findClosestPackageDirectory (fuel : nat) (w : World h)
    (dir : string) : option (option string) :=
  match fuel with
  | O => None
  | S fuel' =>
      if negb (dir =? path_root h dir) then
        let packageJsonPath := path_join h dir "package.json" in
        if existsSync h w packageJsonPath then Some (Some dir)
        else findClosestPackageDirectory fuel' w (path_dirname h dir)
      else Some None
  end.

(** [packageJson.key]: reading a property of [null] is a type error. *)
Definition property (json : JS.value) (key : string) : Failure + JS.value :=
  match json with
  | JS.Undefined | JS.Null => inl NodeTypeError
  | _ => inr (JS.get json key)
  end.

Definition getModuleType (w : World h) (packagePath : option string)
    : Failure + string :=
  match packagePath with
  | None => inr "commonjs"
  | Some packagePath =>
      if negb (JS.truthy (JS.Str packagePath)) then inr "commonjs"
      else
        let packageJsonPath := path_join h packagePath "package.json" in
        match readJSON h w packageJsonPath with
        | inl e => inl e
        | inr packageJson =>
            match property packageJson "type" with
            | inl e => inl e
            | inr type =>
                inr (if JS.equals_string type "module" then "esm"
                     else "commonjs")
            end
        end
  end.

Definition isPackageEsm (w : World h) (packagePath : option string)
    : Failure + bool :=
  match getModuleType w packagePath with
  | inl e => inl e
  | inr moduleType => inr (moduleType =? "esm")
  end.

Definition bundleTsFile (fuel : nat) (filename outpath : string)
    : Call unit :=
  fun w =>
    match findClosestPackageDirectory fuel w (cwd h w) with
    | None => None
    | Some packagePath =>
        match isPackageEsm w packagePath with
        | inl e => Some (w, inl e)
        | inr isModule =>
            match packagePath with
            | None => Some (w, inl NodeTypeError)  (* [path.join(null, ...)] *)
            | Some packagePath =>
                let potentialTsconfigPath :=
                  path_join h packagePath "tsconfig.json" in
                let tsconfigPath :=
                  if existsSync h w potentialTsconfigPath
                  then Some potentialTsconfigPath else None in
                Some (buildSync h
                        {| entryPoints := [filename];
                           outfile := outpath;
                           bundle := true;
                           platform := "node";
                           target := "node20";
                           format := if isModule : bool then "esm" else "cjs";
                           tsconfig := tsconfigPath |} w)
            end
        end
    end.

Definition importFresh (modulePath : string)
    : World h -> World h * (Failure + Imported h) :=
  fun w =>
    let cacheBustingModulePath :=
      modulePath ++ "?update=" ++ JS.number_to_string (dateNow h w) in
    import h cacheBustingModulePath w.

(** [isCallerESM()]: the file neither defines nor imports [isCallerESM],
    so evaluating the call throws a reference error. *)
Definition isCallerESM : Call bool :=
  fun w => Some (w, inl (ReferenceError "isCallerESM")).

(** [loadTsModule]; the module it resolves to, or [None] for [undefined]. *)
Definition loadTsModule (fuel : nat) (filepath : string)
    : Call (option (Imported h)) :=
  fun w =>
    if negb (endsWith filepath ".ts") then Some (w, inl FileMustBeTs)
    else
      let absolutePath := path_resolve h w filepath in
      let dir := path_dirname h absolutePath in
      let filename := path_basename h absolutePath ".ts" in
      let tmpDir := path_join h dir "tmp" in
      andThen isCallerESM
        (fun callerIsESM : bool =>
           let ext := if callerIsESM then "js" else "mjs" in
           let transpiledJsPath :=
             path_join h tmpDir ("_" ++ filename ++ "." ++ ext) in
           tryFinally
             (fun w =>
                if negb (existsSync h w absolutePath) then Some (w, inr None)
                else
                  andThen
                    (lift (mkdirSync h (path_dirname h transpiledJsPath)))
                    (fun _ =>
                       andThen
                         (bundleTsFile fuel absolutePath transpiledJsPath)
                         (fun _ =>
                            andThen
                              (lift (importFresh
                                       ("file:///" ++ transpiledJsPath)))
                              (fun result w =>
                                 Some (w, inr (Some result))))) w)
             (rmSync h tmpDir)) w.


(** The directory reached from [start] by [k] calls of [path.dirname]. *)
Definition ancestor (start : string) (k : nat) : string :=
  Nat.iter k (path_dirname h) start.

(** The first [k] directories on the way up from [start] are no roots and
    hold no [package.json]. *)
Definition passedOver (w : World h) (start : string) (k : nat) : Prop :=
  forall j, j < k ->
    ancestor start j <> path_root h (ancestor start j)
    /\ existsSync h w (path_join h (ancestor start j) "package.json") = false.

End OnHost.

End Filesystem.

(** A small host to run the functions of [Filesystem] on: the world is the
    list of the paths that exist, the working directory is [/repo/app],
    [/] is the only root, and the [package.json] that is read declares an
    ES module. *)
Definition exampleHost : Filesystem.Host :=
  {| Filesystem.World := list string;
     Filesystem.Imported := string;
     Filesystem.path_join := fun a b => a ++ "/" ++ b;
     Filesystem.path_dirname :=
       fun p => if p =? "/repo/app" then "/repo" else "/";
     Filesystem.path_basename := fun p _ => p;
     Filesystem.path_root := fun _ => "/";
     Filesystem.path_resolve := fun _ p => "/repo/app/" ++ p;
     Filesystem.cwd := fun _ => "/repo/app";
     Filesystem.dateNow := fun _ => 0%Z;
     Filesystem.existsSync := fun w p => existsb (String.eqb p) w;
     Filesystem.readJSON :=
       fun _ _ => inr (JS.Obj [("type", JS.Str "module")]);
     Filesystem.mkdirSync := fun p w => (p :: w, inr tt);
     Filesystem.writeFileSync := fun p _ w => (p :: w, inr tt);
     Filesystem.rmSync :=
       fun p w => (filter (fun q => negb (q =? p)) w, inr tt);
     Filesystem.buildSync :=
       fun options w => (Filesystem.outfile options :: w, inr tt);
     Filesystem.import := fun url w => (w, inr url) |}.

(* ===================================================================== *)
(** ** Numbers and keys as JavaScript has them *)
(* ===================================================================== *)




(** The value of a string of decimal digits, read from the left. *)
Fixpoint digitsValue (acc : N) (s : string) : option N :=
  match s with
  | EmptyString => Some acc
  | String c rest =>
      let code := N_of_ascii c in
      if ((48 <=? code) && (code <=? 57))%N
      then digitsValue (10 * acc + (code - 48)) rest
      else None
  end.

(** An array index: a key that is the decimal numeral of an integer from
    0 to 2^32 - 2, without a sign or leading zeros. *)
Definition arrayIndex (key : string) : option N :=
  match key with
  | EmptyString => None
  | _ =>
      match digitsValue 0 key with
      | Some n =>
          if ((n <=? 4294967294)%N
              && (JS.number_to_string (Z.of_N n) =? key))%bool
          then Some n else None
      | None => None
      end
  end.

Definition isArrayIndex (key : string) : bool :=
  match arrayIndex key with
  | Some _ => true
  | None => false
  end.

Fixpoint insertByIndex {A : Type} (n : N) (entry : string * A)
    (sorted : list (N * (string * A))) : list (N * (string * A)) :=
  match sorted with
  | [] => [(n, entry)]
  | (m, other) :: rest =>
      if (n <? m)%N then (n, entry) :: sorted
      else (m, other) :: insertByIndex n entry rest
  end.

(** The entries whose keys are array indices, by ascending index. *)
Fixpoint indexed {A : Type} (declared : list (string * A))
    : list (N * (string * A)) :=
  match declared with
  | [] => []
  | entry :: rest =>
      match arrayIndex (fst entry) with
      | Some n => insertByIndex n entry (indexed rest)
      | None => indexed rest
      end
  end.

(** The entries of an object in the order [for ... in], [Object.keys] and
    [Object.entries] visit them, for an object whose keys were inserted in
    the order of [declared], each key once: the array indices first, by
    ascending value, then the other keys in the order of their
    insertion. *)
Definition ownEntries {A : Type} (declared : list (string * A))
    : list (string * A) :=
  List.app (map snd (indexed declared))
    (filter (fun entry => negb (isArrayIndex (fst entry))) declared).

(* ===================================================================== *)
(** ** Strings, completions and loops *)
(* ===================================================================== *)

Lemma append_assoc (a b c : string) : (a ++ b) ++ c = a ++ b ++ c.
Proof.
  induction a as [|ch a IH]; simpl; [reflexivity | now rewrite IH].
Qed.

Lemma append_empty_r (a : string) : a ++ "" = a.
Proof.
  induction a as [|ch a IH]; simpl; [reflexivity | now rewrite IH].
Qed.

Lemma concat_empty_cons (x : string) (xs : list string) :
  String.concat "" (x :: xs) = x ++ String.concat "" xs.
Proof.
  destruct xs as [|y ys]; simpl; [now rewrite append_empty_r | reflexivity].
Qed.

Lemma ret_inj {A : Type} (a b : A) : ret a = ret b -> a = b.
Proof. unfold ret; congruence. Qed.

Lemma bind_ret_inv {A B : Type} (c : completion A) (k : A -> completion B)
    (b : B) :
  bind c k = ret b -> exists a, c = ret a /\ k a = ret b.
Proof.
  destruct c as [e|a]; simpl; intros H.
  - discriminate H.
  - exists a; split; [reflexivity | exact H].
Qed.

(** A successful [map] pairs every element with its own image, in the
    order of the array. *)
Lemma mapM_ret_Forall2 {A B : Type} (f : A -> completion B) :
  forall xs ys, mapM f xs = ret ys -> Forall2 (fun x y => f x = ret y) xs ys.
Proof.
  induction xs as [|x xs IH]; simpl; intros ys H.
  - apply ret_inj in H; subst ys; constructor.
  - apply bind_ret_inv in H; destruct H as [y [Hy H]].
    apply bind_ret_inv in H; destruct H as [ys' [Hys H]].
    apply ret_inj in H; subst ys.
    constructor; [exact Hy | apply IH; exact Hys].
Qed.

(** The first element on which [f] throws decides the whole [map]. *)
Lemma mapM_throw_first {A B : Type} (f : A -> completion B) (e : Error) :
  forall pre x post,
    Forall (fun p => exists y, f p = ret y) pre ->
    f x = throw e ->
    mapM f (pre ++ x :: post)%list = throw e.
Proof.
  induction pre as [|p pre IH]; simpl; intros x post Hpre Hx.
  - rewrite Hx; reflexivity.
  - inversion Hpre as [|? ? [y Hy] Hrest]; subst.
    rewrite Hy; simpl; rewrite (IH x post Hrest Hx); reflexivity.
Qed.

(** When [f] throws on some element, [map] throws, on that element or on
    an earlier one. *)
Lemma mapM_throw_In {A B : Type} (f : A -> completion B) :
  forall xs x,
    In x xs -> (exists e, f x = throw e) -> exists e, mapM f xs = throw e.
Proof.
  induction xs as [|y xs IH]; intros x Hin Hx; [contradiction Hin|].
  cbn [mapM]; destruct (f y) as [e|b] eqn:Hy; [exists e; reflexivity|].
  destruct Hin as [->|Hin].
  - destruct Hx as [e He]; unfold throw in He; congruence.
  - destruct (IH x Hin Hx) as [e He]; exists e; rewrite He; reflexivity.
Qed.

(** A loop that only appends a piece per entry yields the pieces one after
    the other, behind what was there before. *)
Lemma forIn_appends {A : Type} (piece : A -> completion string)
    (body : A -> string -> completion string) :
  (forall entry result,
      body entry result = (text <- piece entry ;; ret (result ++ text))) ->
  forall entries result,
    forIn entries body result
    = (texts <- mapM piece entries ;; ret (result ++ String.concat "" texts)).
Proof.
  intros Hbody; induction entries as [|entry rest IH]; intros result;
    cbn [forIn mapM].
  - cbn; now rewrite append_empty_r.
  - rewrite Hbody; destruct (piece entry) as [e|text]; cbn [bind ret];
      [reflexivity|].
    rewrite IH; destruct (mapM piece rest) as [e|texts]; cbn [bind ret];
      [reflexivity|].
    now rewrite concat_empty_cons, append_assoc.
Qed.

(* ===================================================================== *)
(** ** Value encoder: literals, defaults, options *)
(* ===================================================================== *)

Lemma valueToJS_literal (v : JS.value) :
  isLiteral v = true -> exists text, valueToJS v = ret text.
Proof.
  destruct v; simpl; intros H; try discriminate H; eexists; reflexivity.
Qed.

Lemma mapM_valueToJS_literals :
  forall args, Forall (fun a => isLiteral a = true) args ->
  exists texts, mapM valueToJS args = ret texts.
Proof.
  induction 1 as [|a args Ha _ [texts IH]]; simpl.
  - exists []; reflexivity.
  - destruct (valueToJS_literal a Ha) as [text Htext].
    exists (text :: texts); rewrite Htext; simpl; rewrite IH; reflexivity.
Qed.


(** C5. A function-call default [{ func: name, args }] whose arguments are
    literals is rendered exactly when [name] is [now] or [uuid]: the text
    is [S.Default.name(...)] with the arguments encoded by [valueToJS] and
    joined by a comma and a space, so that no argument gives an empty
    call.  Every other name throws [Invalid default function name],
    whatever the arguments are. *)
Theorem defaultValueToString_function_call (name : string)
    (args : list JS.value)
    (Hargs : Forall (fun a => isLiteral a = true) args) :
  ((name = "now" \/ name = "uuid") ->
     exists texts,
       Forall2 (fun a text => valueToJS a = ret text) args texts
       /\ defaultValueToString (FunctionCall name args)
          = ret ("S.Default." ++ name ++ "("
                 ++ String.concat ", " texts ++ ")"))
  /\ (name <> "now" -> name <> "uuid" ->
        defaultValueToString (FunctionCall name args)
        = throw InvalidDefaultFunctionName)
  /\ ((exists text, defaultValueToString (FunctionCall name args) = ret text)
      <-> name = "now" \/ name = "uuid")
  /\ (args = [] -> name = "uuid" ->
        defaultValueToString (FunctionCall name args) = ret "S.Default.uuid()").
Proof.
  assert (Hok : (name = "now" \/ name = "uuid") ->
     exists texts,
       Forall2 (fun a text => valueToJS a = ret text) args texts
       /\ defaultValueToString (FunctionCall name args)
          = ret ("S.Default." ++ name ++ "("
                 ++ String.concat ", " texts ++ ")")).
  { intros Hname.
    destruct (mapM_valueToJS_literals args Hargs) as [texts Htexts].
    exists texts; split; [apply mapM_ret_Forall2; exact Htexts|].
    unfold defaultValueToString, FunctionCall; simpl JS.is_object; cbv iota.
    assert (Hin : JS.includes_value ["now"; "uuid"]
                    (JS.get (JS.Obj [("func", JS.Str name);
                                     ("args", JS.Arr args)]) "func") = true).
    { destruct Hname; subst name; reflexivity. }
    rewrite Hin; simpl; rewrite Htexts; reflexivity. }
  assert (Hbad : name <> "now" -> name <> "uuid" ->
        defaultValueToString (FunctionCall name args)
        = throw InvalidDefaultFunctionName).
  { intros Hnow Huuid.
    unfold defaultValueToString, FunctionCall; simpl.
    apply String.eqb_neq in Hnow, Huuid; rewrite Hnow, Huuid; reflexivity. }
  split; [exact Hok|]. split; [exact Hbad|]. split.
  - split.
    + intros [text Htext].
      destruct (String.eqb_spec name "now") as [|Hnow]; [now left|].
      destruct (String.eqb_spec name "uuid") as [|Huuid]; [now right|].
      rewrite (Hbad Hnow Huuid) in Htext; discriminate Htext.
    + intros Hname; destruct (Hok Hname) as [texts [_ H]]; eauto.
  - intros -> ->; reflexivity.
Qed.

Lemma defaultValueToString_function_call_witness :
  (exists texts,
      Forall2 (fun a text => valueToJS a = ret text)
        [JS.Num 1; JS.Str "a"] texts
      /\ defaultValueToString (FunctionCall "now" [JS.Num 1; JS.Str "a"])
         = ret ("S.Default." ++ "now" ++ "("
                ++ String.concat ", " texts ++ ")"))
  /\ defaultValueToString (FunctionCall "sum" [])
     = throw InvalidDefaultFunctionName
  /\ defaultValueToString (FunctionCall "uuid" []) = ret "S.Default.uuid()".
Proof.
  split; [|split].
  - apply (defaultValueToString_function_call "now" [JS.Num 1; JS.Str "a"]).
    + repeat constructor.
    + left; reflexivity.
  - apply (defaultValueToString_function_call "sum" []).
    + constructor.
    + discriminate.
    + discriminate.
  - apply (defaultValueToString_function_call "uuid" []).
    + constructor.
    + reflexivity.
    + reflexivity.
Defined.

Lemma valueOptionsEntries_default (n : option bool) (d : JS.value) :
  d <> JS.Undefined ->
  valueOptionsEntries {| nullable := n; default := d |}
  = (text <- defaultValueToString d ;;
     ret (List.app
            match n with
            | Some b => ["nullable: " ++ JS.bool_to_string b]
            | None => []
            end ["default: " ++ text])).
Proof.
  intros Hd; destruct d; try reflexivity; now contradiction Hd.
Qed.

(** C7. [valueOptionsToString] writes a [nullable: b] entry exactly when
    [nullable] is set, [false] included, and a [default: text] entry
    exactly when [default] is there, with [text] from
    [defaultValueToString]; the entries are joined by a comma and a space
    between braces.  With neither key the text is the empty string, and
    no braces are written. *)
Theorem valueOptionsToString_entries :
  valueOptionsToString {| nullable := None; default := JS.Undefined |} = ret ""
  /\ (forall b,
        valueOptionsToString {| nullable := Some b; default := JS.Undefined |}
        = ret ("{nullable: " ++ (if b then "true" else "false") ++ "}"))
  /\ (forall d text,
        d <> JS.Undefined -> defaultValueToString d = ret text ->
        valueOptionsToString {| nullable := None; default := d |}
        = ret ("{default: " ++ text ++ "}")
        /\ forall b,
             valueOptionsToString {| nullable := Some b; default := d |}
             = ret ("{nullable: " ++ (if b then "true" else "false")
                    ++ ", default: " ++ text ++ "}"))
  /\ (forall n d e,
        d <> JS.Undefined -> defaultValueToString d = throw e ->
        valueOptionsToString {| nullable := n; default := d |} = throw e).
Proof.
  split; [reflexivity|]. split; [intros []; reflexivity|]. split.
  - intros d text Hd Htext; split; [|intros b];
      unfold valueOptionsToString;
      rewrite (valueOptionsEntries_default _ d Hd), Htext;
      [|destruct b]; reflexivity.
  - intros n d e Hd He; unfold valueOptionsToString.
    rewrite (valueOptionsEntries_default _ d Hd), He; reflexivity.
Qed.

Lemma valueOptionsToString_entries_witness :
  (valueOptionsToString {| nullable := None; default := JS.Num 3 |}
   = ret ("{default: " ++ "3" ++ "}")
   /\ forall b,
        valueOptionsToString {| nullable := Some b; default := JS.Num 3 |}
        = ret ("{nullable: " ++ (if b then "true" else "false")
               ++ ", default: " ++ "3" ++ "}"))
  /\ valueOptionsToString
       {| nullable := Some false; default := FunctionCall "sum" [] |}
     = throw InvalidDefaultFunctionName.
Proof.
  split.
  - apply (proj1 (proj2 (proj2 valueOptionsToString_entries)) (JS.Num 3) "3").
    + discriminate.
    + reflexivity.
  - apply (proj2 (proj2 (proj2 valueOptionsToString_entries))).
    + discriminate.
    + reflexivity.
Defined.

(* ===================================================================== *)
(** ** Attribute encoder: the switch and the optional marker *)
(* ===================================================================== *)

Lemma schemaItemToString_unfold (attribute : AttributeDefinition)
    (optional : bool) :
  schemaItemToString attribute optional
  = (result <- schemaItemBody attribute ;;
     ret (if negb (JS.includes excludeOptional (type_of attribute))
          then wrapOptional result optional
          else result)).
Proof.
  destruct attribute as [type options|items options|properties keys|query c];
    try reflexivity.
  cbn [schemaItemToString schemaItemBody]; do 2 f_equal.
  induction properties as [|[key value] rest IH]; [reflexivity|].
  cbn [mapM]; unfold recordEntry at 1; cbn [fst snd].
  destruct (schemaItemToString value (isOptional keys key)) as [e|text];
    cbn [bind ret]; [reflexivity|].
  rewrite IH; reflexivity.
Qed.

Lemma includes_In (names : list string) (s : string) :
  JS.includes names s = true <-> In s names.
Proof.
  unfold JS.includes; rewrite existsb_exists; split.
  - intros [x [Hin Heq]]; apply String.eqb_eq in Heq; now subst.
  - intros Hin; exists s; split; [exact Hin | apply String.eqb_refl].
Qed.

Lemma isOptional_In (keys : option (list string)) (key : string) :
  isOptional keys key = true <-> exists ks, keys = Some ks /\ In key ks.
Proof.
  destruct keys as [ks|]; simpl.
  - rewrite includes_In; split; [eauto|].
    intros [ks' [H Hin]]; inversion H; now subst.
  - split; [discriminate|]. intros [ks [H _]]; discriminate H.
Qed.

(** The text of the switch never starts with the optional marker. *)
Lemma schemaItemBody_not_wrapped (attribute : AttributeDefinition)
    (body : string) :
  schemaItemBody attribute = ret body -> isWrapped body = false.
Proof.
  destruct attribute as [type options|items options|properties keys|query c];
    cbn [schemaItemBody]; intros H.
  - repeat match type of H with
           | (if ?b then _ else _) = _ => destruct b
           end;
      try discriminate H;
      apply bind_ret_inv in H; destruct H as [o [_ H]];
      apply ret_inj in H; subst body; reflexivity.
  - apply bind_ret_inv in H; destruct H as [i [_ H]].
    apply bind_ret_inv in H; destruct H as [o [_ H]].
    apply ret_inj in H; subst body; reflexivity.
  - apply bind_ret_inv in H; destruct H as [entries [_ H]].
    apply ret_inj in H; subst body; reflexivity.
  - repeat match type of H with
           | (if ?b then _ else _) = _ => destruct b
           end;
      apply ret_inj in H; subst body; reflexivity.
Qed.

(** A record that is encoded has one entry per property, each the
    encoding of that property under the flag its key has in this record's
    [optional] list, in the order of the properties. *)
Lemma schemaItemToString_record_entries
    (properties : list (string * AttributeDefinition))
    (keys : option (list string)) (optional : bool) (out : string) :
  schemaItemToString (RecordAttribute properties keys) optional = ret out ->
  exists entries,
    Forall2 (fun entry text => recordEntry keys entry = ret text)
      properties entries
    /\ out = wrapOptional
               ("S.Record({" ++ String.concat ("," ++ JS.newline) entries
                ++ "})") optional.
Proof.
  rewrite schemaItemToString_unfold; cbn [schemaItemBody]; intros H.
  apply bind_ret_inv in H; destruct H as [body [H Hout]].
  apply bind_ret_inv in H; destruct H as [entries [Hentries H]].
  apply ret_inj in H; apply ret_inj in Hout; subst body out.
  exists entries; split; [apply mapM_ret_Forall2; exact Hentries|reflexivity].
Qed.

(* ===================================================================== *)
(** ** Collection and module assembly: the loops as concatenations *)
(* ===================================================================== *)

Lemma generateAttributesSection_pieces (schema : CollectionSchema)
    (indent : string) :
  generateAttributesSection schema indent
  = (texts <- mapM (propertyText schema indent) (properties schema) ;;
     ret (indent ++ "schema: S.Schema({" ++ JS.newline
          ++ String.concat "" texts
          ++ indent ++ "})," ++ JS.newline)).
Proof.
  unfold generateAttributesSection.
  rewrite (forIn_appends (propertyText schema indent));
    [|intros entry result; reflexivity].
  destruct (mapM (propertyText schema indent) (properties schema))
    as [e|texts]; cbn [bind ret]; [reflexivity|].
  cbn [append]; now rewrite !append_assoc.
Qed.

Lemma collectionsDefinitionToFileContent_pieces
    (collectionsDefinition : CollectionsDefinition) (indent : string) :
  collectionsDefinitionToFileContent collectionsDefinition indent
  = (texts <- mapM (collectionText indent) collectionsDefinition ;;
     ret ("{" ++ JS.newline ++ String.concat "" texts
          ++ slice_0_minus2 indent ++ "}")).
Proof.
  unfold collectionsDefinitionToFileContent.
  rewrite (forIn_appends (collectionText indent)).
  - destruct (mapM (collectionText indent) collectionsDefinition)
      as [e|texts]; cbn [bind ret]; [reflexivity|].
    now rewrite !append_assoc.
  - intros entry result; unfold collectionText.
    destruct (generateAttributesSection _ _) as [e|attributes];
      cbn [bind ret]; [reflexivity|].
    destruct (generateRulesSection _ _) as [e|rulesText];
      cbn [bind ret]; [reflexivity|].
    now rewrite !append_assoc.
Qed.

(** A truthy value is not [undefined], so [JSON.stringify] has a text for
    it and the rules section never throws. *)
Lemma generateRulesSection_returns (rules : JS.value) (indent : string) :
  exists text, generateRulesSection rules indent = ret text.
Proof.
  unfold generateRulesSection.
  destruct rules; cbn [JS.truthy];
    try (eexists; reflexivity);
    match goal with
    | |- context [if ?b then _ else _] => destruct b
    end; eexists; reflexivity.
Qed.

Lemma trimEnd_keeps (s : string) (c : ascii) (tail : string) :
  is_white_space c = false -> trimEnd tail = "" ->
  trimEnd (s ++ String c tail) = s ++ String c "".
Proof.
  intros Hc Htail; induction s as [|a s IH]; cbn [append trimEnd].
  - now rewrite Htail, Hc.
  - rewrite IH; destruct s; reflexivity.
Qed.

Lemma trim_template (content : string) :
  trim (JS.newline
        ++ "/**" ++ JS.newline
        ++ " * This file is auto-generated by the Triplit CLI." ++ JS.newline
        ++ " */ " ++ JS.newline
        ++ JS.newline
        ++ "import { Schema as S } from '@triplit/db';" ++ JS.newline
        ++ "export const schema = " ++ content ++ ";" ++ JS.newline
        ++ "      ")
  ++ JS.newline
  = moduleText content.
Proof.
  unfold trim, moduleText.
  set (head := "/**" ++ JS.newline
        ++ " * This file is auto-generated by the Triplit CLI." ++ JS.newline
        ++ " */ " ++ JS.newline
        ++ JS.newline
        ++ "import { Schema as S } from '@triplit/db';" ++ JS.newline
        ++ "export const schema = ").
  assert (E1 : forall rest,
             "/**" ++ JS.newline
             ++ " * This file is auto-generated by the Triplit CLI."
             ++ JS.newline ++ " */ " ++ JS.newline ++ JS.newline
             ++ "import { Schema as S } from '@triplit/db';" ++ JS.newline
             ++ "export const schema = " ++ rest
             = head ++ rest) by reflexivity.
  rewrite !E1.
  assert (E2 : trimStart (JS.newline ++ head ++ content ++ ";" ++ JS.newline
                          ++ "      ")
               = (head ++ content) ++ String ";" (JS.newline ++ "      ")).
  { rewrite append_assoc; reflexivity. }
  rewrite E2, trimEnd_keeps by reflexivity.
  now rewrite !append_assoc.
Qed.

Lemma schemaFileContentFromJSON_text (schemaJSON : option SchemaJSON) :
  schemaFileContentFromJSON schemaJSON
  = (content <-
       collectionsDefinitionToFileContent
         match schemaJSON with
         | Some json =>
             match collections json with
             | Some definition => definition
             | None => []
             end
         | None => []
         end indentation ;;
     ret (moduleText content)).
Proof.
  unfold schemaFileContentFromJSON.
  destruct (collectionsDefinitionToFileContent _ _) as [e|content];
    cbn [bind ret]; [reflexivity|].
  now rewrite trim_template.
Qed.

(* ===================================================================== *)
(** ** Relations *)
(* ===================================================================== *)




(** The members of a subquery: [where] and [order] when the key is there,
    [limit] when it is there and is not zero. *)
Lemma subQueryMembers_present (subquery : QueryParams) :
  subQueryMembers subquery
  = List.app
      match where_ subquery with
      | Some clauses =>
          ["where: " ++ JS.stringify_text (where_value clauses)]
      | None => []
      end
      (List.app
         match limit subquery with
         | Some n => if (n =? 0)%Z then []
                     else ["limit: " ++ JS.number_to_string n]
         | None => []
         end
         match order subquery with
         | Some pairs => ["order: " ++ JS.stringify_text (order_value pairs)]
         | None => []
         end).
Proof.
  destruct subquery as [w l o rest].
  unfold subQueryMembers, whereString, limitString, orderString;
    cbn [where_ limit order JS.truthy].
  destruct w, l as [n|], o; try destruct (n =? 0)%Z; reflexivity.
Qed.




(** C2 at [limit: 0].  The query has a [limit] key, yet the subquery text
    has no [limit] member: [limit ? ... : ''] takes the zero for an absent
    value.  The same query with [limit: 1] does get its member. *)
Theorem subQueryToString_drops_zero_limit :
  let zero := {| where_ := None; limit := Some 0%Z; order := None;
                 others := [] |} in
  let one := {| where_ := None; limit := Some 1%Z; order := None;
                others := [] |} in
  subQueryMembers zero = []
  /\ subQueryToString zero = "{}"
  /\ schemaItemToString
       (QueryAttribute {| collectionName := "users"; queryParams := zero |}
          "many") false
     = ret "S.RelationMany('users',{})"
  /\ subQueryToString one = "{limit: 1}".
Proof. repeat split. Qed.







(* ===================================================================== *)
(** ** The optional marker *)
(* ===================================================================== *)

(** The flag only decides the marker: with the flag off the same node has
    the unmarked text, and with it on the text is that one inside
    [S.Optional(...)], unless the node is a relation. *)
Lemma schemaItemToString_marker (attribute : AttributeDefinition)
    (optional : bool) (text : string) :
  schemaItemToString attribute optional = ret text ->
  exists inner,
    schemaItemToString attribute false = ret inner
    /\ isWrapped inner = false
    /\ text = (if optional && negb (type_of attribute =? "query")
               then "S.Optional(" ++ inner ++ ")" else inner).
Proof.
  rewrite !schemaItemToString_unfold; intros H.
  apply bind_ret_inv in H; destruct H as [body [Hbody H]].
  apply ret_inj in H; exists body; rewrite Hbody; cbn [bind].
  split; [|split].
  - destruct (negb _); reflexivity.
  - exact (schemaItemBody_not_wrapped attribute body Hbody).
  - subst text; unfold excludeOptional, JS.includes; cbn [existsb].
    rewrite orb_false_r.
    destruct (type_of attribute =? "query"), optional; reflexivity.
Qed.

Lemma isWrapped_marker (inner : string) :
  isWrapped ("S.Optional(" ++ inner ++ ")") = true.
Proof.
  unfold isWrapped; cbn; destruct (inner ++ ")"); reflexivity.
Qed.

Lemma marker_iff (attribute : AttributeDefinition)
    (keys : option (list string)) (key : string) (text : string) :
  schemaItemToString attribute (isOptional keys key) = ret text ->
  (isWrapped text = true
   <-> (exists ks, keys = Some ks /\ In key ks)
       /\ type_of attribute <> "query").
Proof.
  intros H; apply schemaItemToString_marker in H.
  destruct H as [inner [_ [Hinner Htext]]].
  rewrite <- isOptional_In.
  destruct (isOptional keys key);
    destruct (String.eqb_spec (type_of attribute) "query") as [Hq|Hq];
    cbn [andb negb] in Htext; subst text.
  - rewrite Hinner; split; [discriminate | intros [_ Hn]; now contradiction Hn].
  - rewrite isWrapped_marker; split; [|reflexivity].
    intros _; split; [reflexivity | exact Hq].
  - rewrite Hinner; split; [discriminate | intros [Hf _]; discriminate Hf].
  - rewrite Hinner; split; [discriminate | intros [Hf _]; discriminate Hf].
Qed.

(** C3. The text of a property is inside the [S.Optional(...)] marker
    exactly when its key is in the [optional] list of the tree that holds
    the property and the property is not a relation; the node has no flag
    of its own, and encoded with the flag off it gives the text that the
    marker surrounds.  This is so for the properties of a record and for
    the root properties of a collection, whose entries are built from
    these texts in order. *)
Theorem optional_marker_follows_container :
  (forall attribute keys key text,
      schemaItemToString attribute (isOptional keys key) = ret text ->
      (isWrapped text = true
       <-> (exists ks, keys = Some ks /\ In key ks)
           /\ type_of attribute <> "query")
      /\ exists inner,
           schemaItemToString attribute false = ret inner
           /\ isWrapped inner = false
           /\ text = (if isWrapped text
                      then "S.Optional(" ++ inner ++ ")" else inner))
  /\ (forall properties keys optional out,
        schemaItemToString (RecordAttribute properties keys) optional
        = ret out ->
        exists entries,
          Forall2
            (fun entry entryText =>
               exists text,
                 schemaItemToString (snd entry) (isOptional keys (fst entry))
                 = ret text
                 /\ entryText = "'" ++ fst entry ++ "': " ++ text
                 /\ (isWrapped text = true
                     <-> (exists ks, keys = Some ks /\ In (fst entry) ks)
                         /\ type_of (snd entry) <> "query"))
            properties entries
          /\ out = wrapOptional
                     ("S.Record({"
                      ++ String.concat ("," ++ JS.newline) entries ++ "})")
                     optional)
  /\ (forall schema indent out,
        generateAttributesSection schema indent = ret out ->
        exists entries,
          Forall2
            (fun entry entryText =>
               exists text,
                 schemaItemToString (snd entry)
                   (isOptional (optional schema) (fst entry))
                 = ret text
                 /\ entryText = (indent ++ indentation) ++ "'" ++ fst entry
                                ++ "': " ++ text ++ "," ++ JS.newline
                 /\ (isWrapped text = true
                     <-> (exists ks,
                             optional schema = Some ks /\ In (fst entry) ks)
                         /\ type_of (snd entry) <> "query"))
            (properties schema) entries
          /\ out = indent ++ "schema: S.Schema({" ++ JS.newline
                   ++ String.concat "" entries
                   ++ indent ++ "})," ++ JS.newline).
Proof.
  split; [|split].
  - intros attribute keys key text H; split; [exact (marker_iff _ _ _ _ H)|].
    pose proof (marker_iff _ _ _ _ H) as Hiff.
    apply schemaItemToString_marker in H.
    destruct H as [inner [Hfalse [Hinner Htext]]].
    exists inner; split; [exact Hfalse|]. split; [exact Hinner|].
    destruct (isOptional keys key && negb (type_of attribute =? "query"));
      subst text; [now rewrite isWrapped_marker | now rewrite Hinner].
  - intros properties keys optional out H.
    apply schemaItemToString_record_entries in H.
    destruct H as [entries [Hentries Hout]].
    exists entries; split; [|exact Hout].
    eapply Forall2_impl; [|exact Hentries].
    intros entry entryText Hentry; unfold recordEntry in Hentry.
    apply bind_ret_inv in Hentry; destruct Hentry as [text [Htext Hentry]].
    apply ret_inj in Hentry.
    exists text; split; [exact Htext|]. split; [now symmetry|].
    exact (marker_iff _ _ _ _ Htext).
  - intros schema indent out H.
    rewrite generateAttributesSection_pieces in H.
    apply bind_ret_inv in H; destruct H as [entries [Hentries Hout]].
    apply ret_inj in Hout; apply mapM_ret_Forall2 in Hentries.
    exists entries; split; [|now symmetry].
    eapply Forall2_impl; [|exact Hentries].
    intros entry entryText Hentry.
    unfold propertyText in Hentry; cbn [generateAttributeSchema] in Hentry.
    apply bind_ret_inv in Hentry; destruct Hentry as [text [Htext Hentry]].
    apply ret_inj in Hentry.
    exists text; split; [exact Htext|]. split; [now symmetry|].
    exact (marker_iff _ _ _ _ Htext).
Qed.

Lemma optional_marker_follows_container_witness :
  (isWrapped "S.Optional(S.String())" = true
   <-> (exists ks, Some ["name"] = Some ks /\ In "name" ks)
       /\ type_of (ValueAttribute "string"
                     {| nullable := None; default := JS.Undefined |})
          <> "query")
  /\ exists entries,
       Forall2
         (fun entry entryText =>
            exists text,
              schemaItemToString (snd entry)
                (isOptional (Some ["name"]) (fst entry)) = ret text
              /\ entryText = "'" ++ fst entry ++ "': " ++ text
              /\ (isWrapped text = true
                  <-> (exists ks, Some ["name"] = Some ks /\ In (fst entry) ks)
                      /\ type_of (snd entry) <> "query"))
         [("name", ValueAttribute "string"
                     {| nullable := None; default := JS.Undefined |});
          ("owner", QueryAttribute
                      {| collectionName := "users";
                         queryParams := byIdParams (JS.Str "1") |} "one")]
         entries
       /\ "S.Record({'name': S.Optional(S.String())," ++ JS.newline
          ++ "'owner': S.RelationById('users', '1')})"
          = wrapOptional
              ("S.Record({"
               ++ String.concat ("," ++ JS.newline) entries ++ "})") false.
Proof.
  split.
  - apply (proj1 optional_marker_follows_container
             (ValueAttribute "string"
                {| nullable := None; default := JS.Undefined |})
             (Some ["name"]) "name" "S.Optional(S.String())").
    reflexivity.
  - apply (proj1 (proj2 optional_marker_follows_container)
             [("name", ValueAttribute "string"
                         {| nullable := None; default := JS.Undefined |});
              ("owner", QueryAttribute
                          {| collectionName := "users";
                             queryParams := byIdParams (JS.Str "1") |} "one")]
             (Some ["name"]) false).
    reflexivity.
Defined.

(* ===================================================================== *)
(** ** Errors on the way up *)
(* ===================================================================== *)

Lemma propertyText_throw (schema : CollectionSchema) (indent : string)
    (entry : string * AttributeDefinition) (e : Error) :
  schemaItemToString (snd entry) (isOptional (optional schema) (fst entry))
  = throw e ->
  propertyText schema indent entry = throw e.
Proof.
  intros H; unfold propertyText; cbn [generateAttributeSchema].
  rewrite H; reflexivity.
Qed.

Lemma propertyText_ret (schema : CollectionSchema) (indent : string)
    (entry : string * AttributeDefinition) :
  (exists text,
      schemaItemToString (snd entry)
        (isOptional (optional schema) (fst entry)) = ret text) ->
  exists text, propertyText schema indent entry = ret text.
Proof.
  intros [text H]; unfold propertyText; cbn [generateAttributeSchema].
  rewrite H; eexists; reflexivity.
Qed.

(** The first root property that throws ends the schema section with its
    error. *)
Lemma generateAttributesSection_throw
    (pre post : list (string * AttributeDefinition)) (key : string)
    (value : AttributeDefinition) (keys : option (list string))
    (indent : string) (e : Error) :
  Forall (fun entry =>
            exists text,
              schemaItemToString (snd entry) (isOptional keys (fst entry))
              = ret text) pre ->
  schemaItemToString value (isOptional keys key) = throw e ->
  generateAttributesSection
    {| properties := (pre ++ (key, value) :: post)%list; optional := keys |}
    indent
  = throw e.
Proof.
  intros Hpre Hvalue; rewrite generateAttributesSection_pieces.
  cbn [properties].
  rewrite (mapM_throw_first _ e); [reflexivity| |].
  - eapply Forall_impl; [|exact Hpre].
    intros entry Hentry.
    apply (propertyText_ret
             {| properties := (pre ++ (key, value) :: post)%list;
                optional := keys |}); exact Hentry.
  - apply propertyText_throw; exact Hvalue.
Qed.

(** The first collection whose schema section throws ends the collections
    literal with that error. *)
Lemma collectionsDefinitionToFileContent_throw
    (before after : CollectionsDefinition) (name : string)
    (definition : CollectionDefinition) (indent : string) (e : Error) :
  Forall (fun entry =>
            exists text,
              generateAttributesSection (schema (snd entry))
                (indent ++ indentation) = ret text) before ->
  generateAttributesSection (schema definition) (indent ++ indentation)
  = throw e ->
  collectionsDefinitionToFileContent
    (before ++ (name, definition) :: after)%list indent
  = throw e.
Proof.
  intros Hbefore Hdef; rewrite collectionsDefinitionToFileContent_pieces.
  rewrite (mapM_throw_first _ e); [reflexivity| |].
  - eapply Forall_impl; [|exact Hbefore].
    intros entry [attributes Hattributes]; unfold collectionText.
    rewrite Hattributes; cbn [bind ret].
    destruct (generateRulesSection_returns (rules (snd entry))
                (indent ++ indentation)) as [rulesText Hrules].
    rewrite Hrules; eexists; reflexivity.
  - unfold collectionText; cbn [fst snd]; rewrite Hdef; reflexivity.
Qed.

(** C4. An attribute whose [type] is none of [string], [boolean],
    [number], [date], [set], [record], [query] makes [schemaItemToString]
    throw [Invalid type: <type>], whatever its options and flag.  An error
    thrown for a node is thrown, unchanged, by the set and by the record
    that hold the node, by the collections literal and by the module
    functions, given that the properties and collections visited before
    the node were encoded: the result is the error, and no text.  Wherever
    the root property that throws stands, the module function throws. *)
Theorem unknown_type_aborts_module :
  (forall type options optional,
      ~ In type knownTypes ->
      schemaItemToString (ValueAttribute type options) optional
      = throw (InvalidType type))
  /\ (forall items options optional e,
        schemaItemToString items false = throw e ->
        schemaItemToString (SetAttribute items options) optional = throw e)
  /\ (forall pre key value post keys optional e,
        Forall (fun entry =>
                  exists text,
                    schemaItemToString (snd entry)
                      (isOptional keys (fst entry)) = ret text) pre ->
        schemaItemToString value (isOptional keys key) = throw e ->
        schemaItemToString
          (RecordAttribute (pre ++ (key, value) :: post)%list keys) optional
        = throw e)
  /\ (forall before name pre key value post keys rules after e,
        Forall (fun entry =>
                  exists text,
                    generateAttributesSection (schema (snd entry))
                      (indentation ++ indentation) = ret text) before ->
        Forall (fun entry =>
                  exists text,
                    schemaItemToString (snd entry)
                      (isOptional keys (fst entry)) = ret text) pre ->
        schemaItemToString value (isOptional keys key) = throw e ->
        let definitions :=
          (before
           ++ (name, {| schema := {| properties :=
                                       (pre ++ (key, value) :: post)%list;
                                     optional := keys |};
                        rules := rules |}) :: after)%list in
        collectionsDefinitionToFileContent definitions indentation = throw e
        /\ (forall version,
              schemaFileContentFromJSON
                (Some {| version := version;
                         collections := Some definitions |})
              = throw e)
        /\ (forall (Schema : Type) schemaToJSON (schema : option Schema)
                   version,
              schemaToJSON schema
              = Some {| version := version;
                        collections := Some definitions |} ->
              schemaFileContentFromSchema schemaToJSON schema = throw e))
  /\ (forall definitions name definition key value version,
        In (name, definition) definitions ->
        In (key, value) (properties (schema definition)) ->
        (exists e,
            schemaItemToString value
              (isOptional (optional (schema definition)) key) = throw e) ->
        exists e,
          schemaFileContentFromJSON
            (Some {| version := version; collections := Some definitions |})
          = throw e).
Proof.
  split; [|split; [|split; [|split]]].
  - intros type options optional Hnot.
    assert (Hne : forall s, In s knownTypes -> (type =? s) = false).
    { intros s Hs; apply String.eqb_neq; intros ->; exact (Hnot Hs). }
    rewrite schemaItemToString_unfold; cbn [schemaItemBody].
    unfold JS.includes at 1; cbn [existsb].
    rewrite !Hne by (cbn; tauto); reflexivity.
  - intros items options optional e H.
    rewrite schemaItemToString_unfold; cbn [schemaItemBody].
    rewrite H; reflexivity.
  - intros pre key value post keys optional e Hpre Hvalue.
    rewrite schemaItemToString_unfold; cbn [schemaItemBody].
    rewrite (mapM_throw_first _ e); [reflexivity| |].
    + eapply Forall_impl; [|exact Hpre].
      intros entry [text Htext]; unfold recordEntry.
      rewrite Htext; eexists; reflexivity.
    + unfold recordEntry; cbn [fst snd]; rewrite Hvalue; reflexivity.
  - intros before name pre key value post keys rules after e
      Hbefore Hpre Hvalue definitions.
    assert (Hcs : collectionsDefinitionToFileContent definitions indentation
                  = throw e).
    { apply collectionsDefinitionToFileContent_throw; [exact Hbefore|].
      apply generateAttributesSection_throw; assumption. }
    assert (Hjson : forall version,
               schemaFileContentFromJSON
                 (Some {| version := version;
                          collections := Some definitions |})
               = throw e).
    { intros version; rewrite schemaFileContentFromJSON_text.
      cbn [collections]; rewrite Hcs; reflexivity. }
    split; [exact Hcs|]. split; [exact Hjson|].
    intros Schema schemaToJSON schema version HtoJSON.
    unfold schemaFileContentFromSchema; rewrite HtoJSON; apply Hjson.
  - intros definitions name definition key value version Hdef Hprop Hvalue.
    rewrite schemaFileContentFromJSON_text; cbn [collections].
    rewrite collectionsDefinitionToFileContent_pieces.
    destruct (mapM_throw_In (collectionText indentation) definitions
                (name, definition) Hdef) as [e He].
    + unfold collectionText; cbn [fst snd].
      rewrite generateAttributesSection_pieces.
      destruct (mapM_throw_In
                  (propertyText (schema definition)
                     (indentation ++ indentation))
                  (properties (schema definition)) (key, value) Hprop)
        as [e He].
      * destruct Hvalue as [e He]; exists e.
        apply propertyText_throw; exact He.
      * exists e; rewrite He; reflexivity.
    + exists e; rewrite He; reflexivity.
Qed.

Lemma unknown_type_aborts_module_witness :
  schemaItemToString
    (ValueAttribute "uuid" {| nullable := None; default := JS.Undefined |})
    true
  = throw (InvalidType "uuid")
  /\ schemaItemToString
       (RecordAttribute
          [("a", ValueAttribute "string"
                   {| nullable := None; default := JS.Undefined |});
           ("b", ValueAttribute "uuid"
                   {| nullable := None; default := JS.Undefined |})] None)
       false
     = throw (InvalidType "uuid")
  /\ schemaFileContentFromJSON
       (Some {| version := 0;
                collections :=
                  Some [("todos",
                         {| schema :=
                              {| properties :=
                                   [("id", ValueAttribute "uuid"
                                             {| nullable := None;
                                                default := JS.Undefined |})];
                                 optional := None |};
                            rules := JS.Undefined |})] |})
     = throw (InvalidType "uuid").
Proof.
  split; [|split].
  - apply (proj1 unknown_type_aborts_module).
    cbn; intros H; repeat destruct H as [H|H]; try discriminate H; exact H.
  - apply (proj1 (proj2 (proj2 unknown_type_aborts_module))
             [("a", ValueAttribute "string"
                      {| nullable := None; default := JS.Undefined |})]
             "b" (ValueAttribute "uuid"
                    {| nullable := None; default := JS.Undefined |}) []).
    + repeat constructor; eexists; reflexivity.
    + reflexivity.
  - apply (proj1 (proj2 (proj2 (proj2 unknown_type_aborts_module)))
             [] "todos" [] "id"
             (ValueAttribute "uuid"
                {| nullable := None; default := JS.Undefined |})
             [] None JS.Undefined [] (InvalidType "uuid")).
    + constructor.
    + constructor.
    + reflexivity.
Defined.

(* ===================================================================== *)
(** ** Order of the output *)
(* ===================================================================== *)

(** The texts follow the entries the code walks.  The schema section of a
    collection is its opening line, then the text of each root property in
    the order of [properties], then its closing line; a record is the texts
    of its properties in that order, joined by a comma and a line feed; the
    module is its header around the texts of the collections in the order
    of [collections]. *)
Lemma texts_follow_entries :
  (forall schema indent out,
      generateAttributesSection schema indent = ret out ->
      exists texts,
        Forall2
          (fun entry text =>
             generateAttributeSchema [fst entry] (snd entry)
               (isOptional (optional schema) (fst entry))
               (indent ++ indentation) = ret text)
          (properties schema) texts
        /\ out = indent ++ "schema: S.Schema({" ++ JS.newline
                 ++ String.concat "" texts
                 ++ indent ++ "})," ++ JS.newline)
  /\ (forall properties keys optional out,
        schemaItemToString (RecordAttribute properties keys) optional
        = ret out ->
        exists texts,
          Forall2
            (fun entry text =>
               exists valueText,
                 schemaItemToString (snd entry) (isOptional keys (fst entry))
                 = ret valueText
                 /\ text = "'" ++ fst entry ++ "': " ++ valueText)
            properties texts
          /\ out = wrapOptional
                     ("S.Record({"
                      ++ String.concat ("," ++ JS.newline) texts ++ "})")
                     optional)
  /\ (forall version definitions out,
        schemaFileContentFromJSON
          (Some {| version := version; collections := Some definitions |})
        = ret out ->
        exists texts,
          Forall2
            (fun entry text =>
               exists attributes rulesText,
                 generateAttributesSection (schema (snd entry))
                   (indentation ++ indentation) = ret attributes
                 /\ generateRulesSection (rules (snd entry))
                      (indentation ++ indentation) = ret rulesText
                 /\ text = indentation ++ "'" ++ fst entry ++ "': {"
                           ++ JS.newline ++ attributes ++ rulesText
                           ++ indentation ++ "}," ++ JS.newline)
            definitions texts
          /\ out = moduleText ("{" ++ JS.newline ++ String.concat "" texts
                               ++ "}"))
  /\ (forall b vb a va keys indent out,
        generateAttributesSection
          {| properties := [(b, vb); (a, va)]; optional := keys |} indent
        = ret out ->
        exists tb ta,
          schemaItemToString vb (isOptional keys b) = ret tb
          /\ schemaItemToString va (isOptional keys a) = ret ta
          /\ out = indent ++ "schema: S.Schema({" ++ JS.newline
                   ++ ((indent ++ indentation) ++ "'" ++ b ++ "': " ++ tb
                       ++ "," ++ JS.newline)
                   ++ ((indent ++ indentation) ++ "'" ++ a ++ "': " ++ ta
                       ++ "," ++ JS.newline)
                   ++ indent ++ "})," ++ JS.newline).
Proof.
  assert (Hsection : forall schema indent out,
      generateAttributesSection schema indent = ret out ->
      exists texts,
        Forall2
          (fun entry text =>
             generateAttributeSchema [fst entry] (snd entry)
               (isOptional (optional schema) (fst entry))
               (indent ++ indentation) = ret text)
          (properties schema) texts
        /\ out = indent ++ "schema: S.Schema({" ++ JS.newline
                 ++ String.concat "" texts
                 ++ indent ++ "})," ++ JS.newline).
  { intros schema indent out H.
    rewrite generateAttributesSection_pieces in H.
    apply bind_ret_inv in H; destruct H as [texts [Htexts Hout]].
    apply ret_inj in Hout; apply mapM_ret_Forall2 in Htexts.
    exists texts; split; [exact Htexts | now symmetry]. }
  split; [exact Hsection|]. split; [|split].
  - intros properties keys optional out H.
    apply schemaItemToString_record_entries in H.
    destruct H as [texts [Htexts Hout]].
    exists texts; split; [|exact Hout].
    eapply Forall2_impl; [|exact Htexts].
    intros entry text Hentry; unfold recordEntry in Hentry.
    apply bind_ret_inv in Hentry; destruct Hentry as [v [Hv Hentry]].
    apply ret_inj in Hentry; exists v; split; [exact Hv | now symmetry].
  - intros version definitions out H.
    rewrite schemaFileContentFromJSON_text in H; cbn [collections] in H.
    apply bind_ret_inv in H; destruct H as [content [Hcontent Hout]].
    apply ret_inj in Hout.
    rewrite collectionsDefinitionToFileContent_pieces in Hcontent.
    apply bind_ret_inv in Hcontent; destruct Hcontent as [texts [Htexts Hc]].
    apply ret_inj in Hc; apply mapM_ret_Forall2 in Htexts.
    exists texts; split; [|subst out content; reflexivity].
    eapply Forall2_impl; [|exact Htexts].
    intros entry text Hentry; unfold collectionText in Hentry.
    apply bind_ret_inv in Hentry; destruct Hentry as [attrs [Hattrs Hentry]].
    apply bind_ret_inv in Hentry; destruct Hentry as [rs [Hrs Hentry]].
    apply ret_inj in Hentry.
    exists attrs, rs; split; [exact Hattrs|]. split; [exact Hrs|now symmetry].
  - intros b vb a va keys indent out H.
    destruct (Hsection _ _ _ H) as [texts [Htexts Hout]].
    cbn [properties optional] in Htexts.
    inversion Htexts as [|? tb' ? rest Hb Hrest]; subst.
    inversion Hrest as [|? ta' ? rest' Ha Hnil]; subst.
    inversion Hnil; subst.
    cbn [generateAttributeSchema fst snd] in Hb, Ha.
    apply bind_ret_inv in Hb; destruct Hb as [tb [Htb Hb]].
    apply bind_ret_inv in Ha; destruct Ha as [ta [Hta Ha]].
    apply ret_inj in Hb; apply ret_inj in Ha; subst tb' ta'.
    exists tb, ta; split; [exact Htb|]. split; [exact Hta|].
    rewrite !concat_empty_cons; cbn [String.concat].
    rewrite append_empty_r, !append_assoc; reflexivity.
Qed.

(** *** The order in which an object gives its keys *)

Lemma insertByIndex_permutation {A : Type} (n : N) (entry : string * A) :
  forall sorted,
    Permutation ((n, entry) :: sorted) (insertByIndex n entry sorted).
Proof.
  induction sorted as [|[m other] rest IH]; cbn [insertByIndex];
    [reflexivity|].
  destruct (n <? m)%N; [reflexivity|].
  rewrite perm_swap; apply perm_skip, IH.
Qed.

Lemma indexed_permutation {A : Type} (declared : list (string * A)) :
  Permutation (map snd (indexed declared))
    (filter (fun entry => isArrayIndex (fst entry)) declared).
Proof.
  induction declared as [|entry rest IH]; cbn [indexed filter];
    [reflexivity|].
  unfold isArrayIndex at 1; destruct (arrayIndex (fst entry)) as [n|];
    [|exact IH].
  rewrite <- (insertByIndex_permutation n entry (indexed rest)).
  cbn [map snd]; apply perm_skip, IH.
Qed.

Lemma filter_partition_permutation {A : Type} (f : A -> bool) :
  forall l, Permutation l (List.app (filter f l)
                             (filter (fun x => negb (f x)) l)).
Proof.
  induction l as [|x l IH]; cbn [filter]; [reflexivity|].
  destruct (f x); cbn [negb app].
  - apply perm_skip, IH.
  - apply Permutation_cons_app, IH.
Qed.

Lemma insertByIndex_head {A : Type} (n m : N) (entry : string * A) :
  forall sorted,
    (m <= n)%N -> HdRel N.le m (map fst sorted) ->
    HdRel N.le m (map fst (insertByIndex n entry sorted)).
Proof.
  intros [|[k other] rest] Hmn Hhead; cbn [insertByIndex map fst].
  - constructor; exact Hmn.
  - destruct (n <? k)%N; cbn [map fst]; constructor;
      [exact Hmn | inversion Hhead; assumption].
Qed.

Lemma insertByIndex_sorted {A : Type} (n : N) (entry : string * A) :
  forall sorted,
    Sorted N.le (map fst sorted) ->
    Sorted N.le (map fst (insertByIndex n entry sorted)).
Proof.
  induction sorted as [|[m other] rest IH]; intros Hsorted;
    cbn [insertByIndex map fst].
  - repeat constructor.
  - destruct (N.ltb_spec n m) as [Hlt|Hge]; cbn [map fst].
    + constructor; [exact Hsorted | constructor; lia].
    + inversion Hsorted as [|? ? Hrest Hhead]; subst.
      constructor; [apply IH, Hrest | apply insertByIndex_head; assumption].
Qed.

Lemma indexed_sorted {A : Type} (declared : list (string * A)) :
  Sorted N.le (map fst (indexed declared)).
Proof.
  induction declared as [|entry rest IH]; cbn [indexed]; [constructor|].
  destruct (arrayIndex (fst entry)) as [n|];
    [apply insertByIndex_sorted, IH | exact IH].
Qed.

Lemma insertByIndex_keys {A : Type} (n : N) (entry : string * A) :
  arrayIndex (fst entry) = Some n ->
  forall sorted,
    Forall (fun p => arrayIndex (fst (snd p)) = Some (fst p)) sorted ->
    Forall (fun p => arrayIndex (fst (snd p)) = Some (fst p))
      (insertByIndex n entry sorted).
Proof.
  intros Hentry; induction sorted as [|[m other] rest IH]; intros Hall;
    cbn [insertByIndex].
  - repeat constructor; exact Hentry.
  - destruct (n <? m)%N.
    + constructor; [exact Hentry | exact Hall].
    + inversion Hall; subst; constructor; [assumption | now apply IH].
Qed.

Lemma indexed_keys {A : Type} (declared : list (string * A)) :
  Forall (fun p => arrayIndex (fst (snd p)) = Some (fst p))
    (indexed declared).
Proof.
  induction declared as [|entry rest IH]; cbn [indexed]; [constructor|].
  destruct (arrayIndex (fst entry)) as [n|] eqn:Hentry;
    [apply insertByIndex_keys; assumption | exact IH].
Qed.

Lemma ownEntries_without_indices {A : Type} (declared : list (string * A)) :
  (forall entry, In entry declared -> arrayIndex (fst entry) = None) ->
  ownEntries declared = declared.
Proof.
  intros Hnone; unfold ownEntries.
  assert (Hindexed : indexed declared = []).
  { induction declared as [|entry rest IH]; [reflexivity|].
    cbn [indexed]; rewrite (Hnone entry (or_introl eq_refl)).
    apply IH; intros e He; apply Hnone; right; exact He. }
  rewrite Hindexed; cbn [map app].
  induction declared as [|entry rest IH]; [reflexivity|].
  cbn [filter indexed] in *; unfold isArrayIndex at 1.
  rewrite (Hnone entry (or_introl eq_refl)) in *; cbn [negb].
  f_equal; apply IH; [intros e He; apply Hnone; right; exact He|].
  exact Hindexed.
Qed.

(** C8, amended.  The texts follow the order in which the object gives its
    entries.  An object whose keys were inserted in the order of
    [declared] gives all its entries, those whose keys are array indices
    first, by ascending index, then the others in the order of insertion;
    when no key is an array index this is the order of insertion itself.
    The schema section of a collection is the texts of its root properties
    in the order the object gives them, a record is the texts of its
    properties in that order, and the module holds the collections in that
    order.  For properties declared as [b] then [a], neither an array
    index, the entry of [b] is written right before the entry of [a]. *)
Theorem enumeration_order_is_kept :
  (forall (A : Type) (declared : list (string * A)),
      Permutation declared (ownEntries declared)
      /\ ownEntries declared
         = List.app (map snd (indexed declared))
             (filter (fun entry => negb (isArrayIndex (fst entry)))
                declared)
      /\ Sorted N.le (map fst (indexed declared))
      /\ Forall (fun p => arrayIndex (fst (snd p)) = Some (fst p))
           (indexed declared)
      /\ ((forall entry, In entry declared ->
                         arrayIndex (fst entry) = None) ->
          ownEntries declared = declared))
  /\ (forall declared keys indent out,
        generateAttributesSection
          {| properties := ownEntries declared; optional := keys |} indent
        = ret out ->
        exists texts,
          Forall2
            (fun entry text =>
               generateAttributeSchema [fst entry] (snd entry)
                 (isOptional keys (fst entry)) (indent ++ indentation)
               = ret text)
            (ownEntries declared) texts
          /\ out = indent ++ "schema: S.Schema({" ++ JS.newline
                   ++ String.concat "" texts
                   ++ indent ++ "})," ++ JS.newline)
  /\ (forall declared keys optional out,
        schemaItemToString (RecordAttribute (ownEntries declared) keys)
          optional = ret out ->
        exists texts,
          Forall2
            (fun entry text =>
               exists valueText,
                 schemaItemToString (snd entry) (isOptional keys (fst entry))
                 = ret valueText
                 /\ text = "'" ++ fst entry ++ "': " ++ valueText)
            (ownEntries declared) texts
          /\ out = wrapOptional
                     ("S.Record({"
                      ++ String.concat ("," ++ JS.newline) texts ++ "})")
                     optional)
  /\ (forall version declared out,
        schemaFileContentFromJSON
          (Some {| version := version;
                   collections := Some (ownEntries declared) |})
        = ret out ->
        exists texts,
          Forall2
            (fun entry text =>
               exists attributes rulesText,
                 generateAttributesSection (schema (snd entry))
                   (indentation ++ indentation) = ret attributes
                 /\ generateRulesSection (rules (snd entry))
                      (indentation ++ indentation) = ret rulesText
                 /\ text = indentation ++ "'" ++ fst entry ++ "': {"
                           ++ JS.newline ++ attributes ++ rulesText
                           ++ indentation ++ "}," ++ JS.newline)
            (ownEntries declared) texts
          /\ out = moduleText ("{" ++ JS.newline ++ String.concat "" texts
                               ++ "}"))
  /\ (forall b vb a va keys indent out,
        arrayIndex b = None -> arrayIndex a = None ->
        generateAttributesSection
          {| properties := ownEntries [(b, vb); (a, va)];
             optional := keys |} indent
        = ret out ->
        exists tb ta,
          schemaItemToString vb (isOptional keys b) = ret tb
          /\ schemaItemToString va (isOptional keys a) = ret ta
          /\ out = indent ++ "schema: S.Schema({" ++ JS.newline
                   ++ ((indent ++ indentation) ++ "'" ++ b ++ "': " ++ tb
                       ++ "," ++ JS.newline)
                   ++ ((indent ++ indentation) ++ "'" ++ a ++ "': " ++ ta
                       ++ "," ++ JS.newline)
                   ++ indent ++ "})," ++ JS.newline).
Proof.
  destruct texts_follow_entries as [Hsection [Hrecord [Hmodule Hpair]]].
  split; [|split; [|split; [|split]]].
  - intros A declared; split; [|split; [reflexivity|split; [|split]]].
    + unfold ownEntries.
      rewrite (indexed_permutation declared).
      apply filter_partition_permutation.
    + apply indexed_sorted.
    + apply indexed_keys.
    + apply ownEntries_without_indices.
  - intros declared keys indent out H.
    exact (Hsection {| properties := ownEntries declared;
                       optional := keys |} indent out H).
  - intros declared keys optional out H.
    exact (Hrecord (ownEntries declared) keys optional out H).
  - intros version declared out H.
    exact (Hmodule version (ownEntries declared) out H).
  - intros b vb a va keys indent out Hb Ha H.
    rewrite ownEntries_without_indices in H.
    + exact (Hpair b vb a va keys indent out H).
    + intros entry [<-|[<-|[]]]; assumption.
Qed.

Lemma enumeration_order_is_kept_witness :
  ownEntries [("b", 1); ("a", 2)] = [("b", 1); ("a", 2)]
  /\ exists tb ta,
       schemaItemToString
         (ValueAttribute "number"
            {| nullable := None; default := JS.Undefined |})
         (isOptional None "b") = ret tb
       /\ schemaItemToString
            (ValueAttribute "string"
               {| nullable := None; default := JS.Undefined |})
            (isOptional None "a") = ret ta
       /\ "schema: S.Schema({" ++ JS.newline
          ++ "  'b': S.Number()," ++ JS.newline
          ++ "  'a': S.String()," ++ JS.newline
          ++ "})," ++ JS.newline
          = "" ++ "schema: S.Schema({" ++ JS.newline
            ++ (("" ++ indentation) ++ "'" ++ "b" ++ "': " ++ tb
                ++ "," ++ JS.newline)
            ++ (("" ++ indentation) ++ "'" ++ "a" ++ "': " ++ ta
                ++ "," ++ JS.newline)
            ++ "" ++ "})," ++ JS.newline.
Proof.
  split.
  - apply (proj1 enumeration_order_is_kept nat [("b", 1); ("a", 2)]).
    intros entry [<-|[<-|[]]]; reflexivity.
  - apply (proj2 (proj2 (proj2 (proj2 enumeration_order_is_kept)))
             "b" (ValueAttribute "number"
                    {| nullable := None; default := JS.Undefined |})
             "a" (ValueAttribute "string"
                    {| nullable := None; default := JS.Undefined |})
             None "");
      reflexivity.
Defined.

(** The claim C8 as it is written fails for a key that is an array index:
    with the properties inserted as [b] and then [1], the object gives [1]
    first, and so the section holds the entry of [1] before the entry of
    [b]. *)
Lemma insertion_order_lost_for_array_index :
  let declared :=
    [("b", ValueAttribute "string"
             {| nullable := None; default := JS.Undefined |});
     ("1", ValueAttribute "number"
             {| nullable := None; default := JS.Undefined |})] in
  ownEntries declared
  = [("1", ValueAttribute "number"
             {| nullable := None; default := JS.Undefined |});
     ("b", ValueAttribute "string"
             {| nullable := None; default := JS.Undefined |})]
  /\ generateAttributesSection
       {| properties := ownEntries declared; optional := None |} ""
     = ret ("schema: S.Schema({" ++ JS.newline
            ++ "  '1': S.Number()," ++ JS.newline
            ++ "  'b': S.String()," ++ JS.newline
            ++ "})," ++ JS.newline)
  /\ ~ (forall (A : Type) (entries : list (string * A)),
          ownEntries entries = entries).
Proof.
  split; [reflexivity|]. split; [reflexivity|].
  intros H; specialize (H nat [("b", 0); ("1", 1)]); discriminate H.
Qed.

(* ===================================================================== *)
(** ** The module of an empty schema *)
(* ===================================================================== *)

(** C9. When [schemaToJSON] gives nothing for the schema, as for an
    undefined schema, or gives JSON without collections or with an empty
    collections object, [schemaFileContentFromSchema] does not throw and
    returns the whole module: the header comment, the import line and
    [export const schema = ] with an object literal that has no member,
    the two braces being on two lines. *)
Theorem empty_schema_gives_complete_module (Schema : Type)
    (schemaToJSON : option Schema -> option SchemaJSON)
    (schema : option Schema)
    (Hempty : schemaToJSON schema = None
              \/ exists json,
                   schemaToJSON schema = Some json
                   /\ (collections json = None
                       \/ collections json = Some [])) :
  schemaFileContentFromSchema schemaToJSON schema
  = ret ("/**" ++ JS.newline
         ++ " * This file is auto-generated by the Triplit CLI." ++ JS.newline
         ++ " */ " ++ JS.newline
         ++ JS.newline
         ++ "import { Schema as S } from '@triplit/db';" ++ JS.newline
         ++ "export const schema = {" ++ JS.newline
         ++ "};" ++ JS.newline).
Proof.
  unfold schemaFileContentFromSchema.
  rewrite schemaFileContentFromJSON_text.
  destruct Hempty as [-> | [json [-> [Hc | Hc]]]]; try rewrite Hc;
    reflexivity.
Qed.

Lemma empty_schema_gives_complete_module_witness :
  (fun schema : option SchemaJSON => schema) None = None
  /\ schemaFileContentFromSchema (fun schema : option SchemaJSON => schema)
       None
     = ret ("/**" ++ JS.newline
            ++ " * This file is auto-generated by the Triplit CLI."
            ++ JS.newline
            ++ " */ " ++ JS.newline
            ++ JS.newline
            ++ "import { Schema as S } from '@triplit/db';" ++ JS.newline
            ++ "export const schema = {" ++ JS.newline
            ++ "};" ++ JS.newline).
Proof.
  split; [reflexivity|].
  apply (empty_schema_gives_complete_module SchemaJSON
           (fun schema => schema) None).
  left; reflexivity.
Defined.

(* ===================================================================== *)
(** ** What the encoder accepts *)
(* ===================================================================== *)















(** X5. A set is written as [S.Set(item,options)] with the comma always
    there; its item is encoded with the flag off, so the item is never
    inside [S.Optional(...)], also when the set itself is optional. *)
Theorem set_item_is_never_optional (items : AttributeDefinition)
    (options : UserTypeOptions) (optional : bool) (text : string)
    (Htext : schemaItemToString (SetAttribute items options) optional
             = ret text) :
  exists item optionsText,
    schemaItemToString items false = ret item
    /\ isWrapped item = false
    /\ valueOptionsToString options = ret optionsText
    /\ text = wrapOptional ("S.Set(" ++ item ++ "," ++ optionsText ++ ")")
                optional.
Proof.
  rewrite schemaItemToString_unfold in Htext; cbn [schemaItemBody] in Htext.
  apply bind_ret_inv in Htext; destruct Htext as [body [H Htext]].
  apply bind_ret_inv in H; destruct H as [item [Hitem H]].
  apply bind_ret_inv in H; destruct H as [o [Ho H]].
  apply ret_inj in H; apply ret_inj in Htext; subst body text.
  exists item, o; split; [exact Hitem|].
  split; [|split; [exact Ho|reflexivity]].
  destruct (schemaItemToString_marker items false item Hitem)
    as [inner [Hinner [Hunwrapped Heq]]].
  cbn [andb] in Heq; now subst item.
Qed.

Lemma set_item_is_never_optional_witness :
  exists item optionsText,
    schemaItemToString
      (ValueAttribute "date" {| nullable := None; default := JS.Undefined |})
      false = ret item
    /\ isWrapped item = false
    /\ valueOptionsToString {| nullable := None; default := JS.Undefined |}
       = ret optionsText
    /\ "S.Optional(S.Set(S.Date(),))"
       = wrapOptional ("S.Set(" ++ item ++ "," ++ optionsText ++ ")") true.
Proof.
  apply (set_item_is_never_optional
           (ValueAttribute "date"
              {| nullable := None; default := JS.Undefined |})
           {| nullable := None; default := JS.Undefined |} true).
  reflexivity.
Defined.

(* ===================================================================== *)
(** ** Strings that are embedded as they are *)
(* ===================================================================== *)

Lemma length_append (a b : string) :
  String.length (a ++ b) = String.length a + String.length b.
Proof.
  induction a as [|c a IH]; cbn; [reflexivity | now rewrite IH].
Qed.

Lemma quote_char_plain (c : ascii) :
  needsEscape c = false -> JS.quote_char c = String c "".
Proof.
  destruct c as [[] [] [] [] [] [] [] []]; vm_compute; intros H;
    try reflexivity; discriminate H.
Qed.

Lemma quote_char_escaped (c : ascii) :
  needsEscape c = true -> 2 <= String.length (JS.quote_char c).
Proof.
  destruct c as [[] [] [] [] [] [] [] []]; vm_compute; intros H;
    try discriminate H; repeat constructor.
Qed.

Lemma quote_chars_length (s : string) :
  String.length s <= String.length (JS.quote_chars s)
  /\ (String.length (JS.quote_chars s) = String.length s ->
      forallb (fun c => negb (needsEscape c)) (list_ascii_of_string s)
      = true).
Proof.
  induction s as [|c s [IHle IHeq]]; cbn [JS.quote_chars list_ascii_of_string
                                           forallb String.length].
  - split; [constructor | reflexivity].
  - rewrite length_append.
    destruct (needsEscape c) eqn:Hc; cbn [negb andb].
    + pose proof (quote_char_escaped c Hc); split; [lia | intros; lia].
    + rewrite (quote_char_plain c Hc); cbn [String.length].
      split; [lia | intros H; apply IHeq; lia].
Qed.

Lemma quote_chars_plain (s : string) :
  forallb (fun c => negb (needsEscape c)) (list_ascii_of_string s) = true ->
  JS.quote_chars s = s.
Proof.
  induction s as [|c s IH]; cbn [JS.quote_chars list_ascii_of_string forallb];
    [reflexivity|].
  intros H; apply andb_true_iff in H; destruct H as [Hc Hs].
  apply negb_true_iff in Hc.
  rewrite (quote_char_plain c Hc), (IH Hs); reflexivity.
Qed.

(** X6. [valueToJS] puts a string between double quotes as it is, in two
    characters more than the string has.  The text is the JSON literal of
    the string exactly when the string has no double quote, backslash or
    control character: those are not escaped. *)
Theorem valueToJS_does_not_escape (s : string) :
  (exists text,
      valueToJS (JS.Str s) = ret text
      /\ String.length text = String.length s + 2)
  /\ (valueToJS (JS.Str s) = ret (JS.quote s)
      <-> forallb (fun c => negb (needsEscape c)) (list_ascii_of_string s)
          = true).
Proof.
  split.
  - eexists; split; [reflexivity|].
    rewrite !length_append; cbn [JS.dquote String.length]; lia.
  - cbn [valueToJS]; unfold JS.quote; split.
    + intros H; apply ret_inj in H.
      apply (proj2 (quote_chars_length s)).
      apply (f_equal String.length) in H; rewrite !length_append in H; lia.
    + intros H; rewrite (quote_chars_plain s H); reflexivity.
Qed.



(* ===================================================================== *)
(** ** The rules section, nested paths and the frame of the module *)
(* ===================================================================== *)

Lemma split_lines_not_nil (s : string) : split_lines s <> [].
Proof.
  destruct s as [|c s]; cbn [split_lines]; [discriminate|].
  destruct (split_lines s); [discriminate|].
  destruct (Ascii.eqb c "010"); discriminate.
Qed.

(** Joining the pieces of [split] with the separator gives the string
    back. *)
Lemma split_lines_join (s : string) :
  String.concat JS.newline (split_lines s) = s.
Proof.
  induction s as [|c s IH]; [reflexivity|]; cbn [split_lines].
  destruct (split_lines s) as [|line lines] eqn:Hs;
    [now contradiction (split_lines_not_nil s)|].
  destruct (Ascii.eqb_spec c "010") as [->|Hc].
  - change (String.concat JS.newline ("" :: line :: lines))
      with (JS.newline ++ String.concat JS.newline (line :: lines)).
    rewrite IH; reflexivity.
  - destruct lines as [|next more]; cbn [String.concat] in *.
    + now rewrite IH.
    + cbn [append]; now rewrite IH.
Qed.

Lemma split_lines_no_newline (s : string) :
  Forall (fun line => ~ In "010"%char (list_ascii_of_string line))
    (split_lines s).
Proof.
  induction s as [|c s IH]; cbn [split_lines].
  - constructor; [intros []|constructor].
  - destruct (split_lines s) as [|line lines] eqn:Hs;
      [now contradiction (split_lines_not_nil s)|].
    inversion IH as [|? ? Hline Hlines]; subst.
    destruct (Ascii.eqb_spec c "010") as [->|Hc].
    + constructor; [intros []|exact IH].
    + constructor; [|exact Hlines].
      cbn [list_ascii_of_string]; intros [H|H];
        [exact (Hc H) | exact (Hline H)].
Qed.

(** X8. The rules section never throws.  For falsy rules (undefined, null,
    [false], 0, the empty string) it is empty.  Otherwise it is [indent],
    [rules: ] and the lines of [JSON.stringify(rules, null, 2)], each line
    after the first behind a line feed and [indent]: the JSON itself is
    what the lines give when joined by line feeds alone. *)
Theorem generateRulesSection_reindents (rules : JS.value) (indent : string) :
  (JS.truthy rules = false -> generateRulesSection rules indent = ret "")
  /\ (JS.truthy rules = true ->
      exists json lines,
        JS.stringify2 rules = Some json
        /\ String.concat JS.newline lines = json
        /\ Forall (fun line => ~ In "010"%char (list_ascii_of_string line))
             lines
        /\ generateRulesSection rules indent
           = ret (indent ++ "rules: "
                  ++ String.concat (JS.newline ++ indent) lines)).
Proof.
  unfold generateRulesSection; split; intros Htruthy; rewrite Htruthy;
    [reflexivity|].
  assert (Hjson : exists json, JS.stringify2 rules = Some json).
  { destruct rules; try discriminate Htruthy; eexists; reflexivity. }
  destruct Hjson as [json Hjson]; rewrite Hjson.
  exists json, (split_lines json); split; [reflexivity|].
  split; [apply split_lines_join|].
  split; [apply split_lines_no_newline | reflexivity].
Qed.

Lemma generateRulesSection_reindents_witness :
  exists json lines,
    JS.stringify2 (JS.Obj [("read", JS.Arr [])]) = Some json
    /\ String.concat JS.newline lines = json
    /\ Forall (fun line => ~ In "010"%char (list_ascii_of_string line)) lines
    /\ generateRulesSection (JS.Obj [("read", JS.Arr [])]) "    "
       = ret ("    " ++ "rules: "
              ++ String.concat (JS.newline ++ "    ") lines).
Proof.
  apply (proj2 (generateRulesSection_reindents
                  (JS.Obj [("read", JS.Arr [])]) "    ")).
  reflexivity.
Defined.

Lemma substring_prefix (base rest : string) :
  String.substring 0 (String.length base) (base ++ rest) = base.
Proof.
  induction base as [|c base IH]; cbn.
  - destruct rest; reflexivity.
  - now rewrite IH.
Qed.

Lemma slice_0_minus2_drops_two (base : string) (a b : ascii) :
  slice_0_minus2 (base ++ String a (String b "")) = base.
Proof.
  unfold slice_0_minus2; rewrite length_append; cbn [String.length].
  replace (String.length base + 2 - 2) with (String.length base) by lia.
  apply substring_prefix.
Qed.

Lemma slice_0_minus2_short (indent : string) :
  String.length indent <= 2 -> slice_0_minus2 indent = "".
Proof.
  intros H; unfold slice_0_minus2.
  replace (String.length indent - 2) with 0 by lia.
  destruct indent; reflexivity.
Qed.

(** X9. The collections literal opens with a brace and a line feed and
    closes with a brace that is indented by [indent] without its last two
    characters, whatever they are; with an indent of at most two
    characters the closing brace is at the start of its line.  With no
    collection there is nothing between the two. *)
Theorem collections_literal_braces
    (definitions : CollectionsDefinition) (indent out : string)
    (Hout : collectionsDefinitionToFileContent definitions indent = ret out) :
  exists body,
    out = "{" ++ JS.newline ++ body ++ slice_0_minus2 indent ++ "}"
    /\ (definitions = [] -> body = "")
    /\ (forall base a b,
          indent = base ++ String a (String b "") ->
          out = "{" ++ JS.newline ++ body ++ base ++ "}")
    /\ (String.length indent <= 2 ->
        out = "{" ++ JS.newline ++ body ++ "}").
Proof.
  rewrite collectionsDefinitionToFileContent_pieces in Hout.
  apply bind_ret_inv in Hout; destruct Hout as [texts [Htexts Hout]].
  apply ret_inj in Hout; exists (String.concat "" texts).
  split; [now symmetry|]. split; [|split].
  - intros ->; apply ret_inj in Htexts; now subst texts.
  - intros base a b ->; rewrite slice_0_minus2_drops_two in Hout.
    now symmetry.
  - intros Hshort; rewrite (slice_0_minus2_short indent Hshort) in Hout.
    now symmetry.
Qed.

Lemma collections_literal_braces_witness :
  exists body,
    "{" ++ JS.newline ++ "}"
    = "{" ++ JS.newline ++ body ++ slice_0_minus2 "  " ++ "}"
    /\ ([] = @nil (string * CollectionDefinition) -> body = "")
    /\ (forall base a b,
          "  " = base ++ String a (String b "") ->
          "{" ++ JS.newline ++ "}" = "{" ++ JS.newline ++ body ++ base ++ "}")
    /\ (String.length "  " <= 2 ->
        "{" ++ JS.newline ++ "}" = "{" ++ JS.newline ++ body ++ "}").
Proof.
  apply (collections_literal_braces [] "  " ("{" ++ JS.newline ++ "}")).
  reflexivity.
Defined.

Lemma generateAttributeSchema_cons (head next : string) (rest : list string)
    (attribute : AttributeDefinition) (optional : bool) (indent : string) :
  generateAttributeSchema (head :: next :: rest) attribute optional indent
  = (nested <- generateAttributeSchema (next :: rest) attribute optional
                 (indent ++ indentation) ;;
     ret (((indent ++ "'" ++ head ++ "': {" ++ JS.newline) ++ nested)
          ++ indent ++ "}," ++ JS.newline)).
Proof. reflexivity. Qed.

(** X10. For a path of several segments [generateAttributeSchema] throws
    what [schemaItemToString] throws for the attribute.  When that returns
    a text, the empty path gives the text alone, and a path whose last
    segment is [last] gives a text in which the entry of [last] is
    indented by [indent] and one indentation unit for each segment before
    it; with one segment the entry is the whole text. *)
Theorem generateAttributeSchema_nested_path
    (attribute : AttributeDefinition) (optional : bool) :
  (forall path indent e,
      schemaItemToString attribute optional = throw e ->
      generateAttributeSchema path attribute optional indent = throw e)
  /\ (forall text,
        schemaItemToString attribute optional = ret text ->
        (forall indent,
            generateAttributeSchema [] attribute optional indent = ret text)
        /\ (forall init last indent,
              exists before after,
                generateAttributeSchema (init ++ [last]) attribute optional
                  indent
                = ret (before
                       ++ indented indent (List.length init)
                       ++ "'" ++ last ++ "': " ++ text ++ "," ++ JS.newline
                       ++ after)
                /\ (init = [] -> before = "" /\ after = ""))).
Proof.
  split.
  - intros path indent e He; revert indent.
    induction path as [|head tail IH]; intros indent; [exact He|].
    destruct tail as [|next rest].
    + cbn [generateAttributeSchema]; rewrite He; reflexivity.
    + rewrite generateAttributeSchema_cons, IH; reflexivity.
  - intros text Htext; split; [intros indent; exact Htext|].
    induction init as [|head init IH]; intros last indent.
    + exists "", ""; split; [|split; reflexivity].
      cbn [app generateAttributeSchema List.length indented].
      rewrite Htext; cbn [bind ret append]; now rewrite append_empty_r.
    + destruct (IH last (indent ++ indentation)) as [before [after [H _]]].
      exists (indent ++ "'" ++ head ++ "': {" ++ JS.newline ++ before),
        (after ++ indent ++ "}," ++ JS.newline).
      split; [|intros Hnil; discriminate Hnil].
      cbn [app List.length indented].
      destruct (init ++ [last])%list as [|next rest] eqn:Htail;
        [destruct init; discriminate Htail|].
      rewrite generateAttributeSchema_cons, H; cbn [bind ret].
      f_equal; rewrite !append_assoc; reflexivity.
Qed.

(* ===================================================================== *)
(** ** Asynchronous generators *)
(* ===================================================================== *)

Lemma collect_arrToGen {E T : Type} (array : E + list (E + T)) :
  forall (values arr : list T) (rest : list (E + T)) (fuel : nat),
    List.length values <= fuel ->
    Generator.collect (fuel + 1) (Generator.arrToGen array)
      (inr (List.app (map inr values) rest)) arr
    = Generator.collect (fuel + 1 - List.length values)
        (Generator.arrToGen array) (inr rest) (List.app arr values).
Proof.
  induction values as [|value values IH]; intros arr rest fuel Hfuel.
  - cbn [map app List.length]; rewrite Nat.sub_0_r, app_nil_r; reflexivity.
  - cbn [List.length] in Hfuel; destruct fuel as [|fuel]; [lia|].
    cbn [map app List.length Nat.add Nat.sub Generator.collect Generator.next
         Generator.arrToGen].
    rewrite IH by lia; now rewrite <- app_assoc.
Qed.

Lemma collect_arrToGen_short {E T : Type} (array : E + list (E + T)) :
  forall (values arr : list T) (fuel : nat),
    fuel <= List.length values ->
    Generator.collect fuel (Generator.arrToGen array)
      (inr (map inr values)) arr = None.
Proof.
  induction values as [|value values IH]; intros arr fuel Hfuel;
    (destruct fuel as [|fuel]; [reflexivity|]); cbn [List.length] in Hfuel.
  - inversion Hfuel.
  - cbn [map Generator.collect Generator.next Generator.arrToGen].
    apply IH; lia.
Qed.

(** X11. Collecting the generator of an array gives the values of its
    items back, an item that is no promise as it is and a promise as what
    it resolves to, in one call of [next] more than the array has items,
    and in no fewer.  The first item that is a rejected promise makes
    [genToArr] reject with its reason, and so does a rejected promise of
    the array. *)
Theorem genToArr_arrToGen {E T : Type} (fuel : nat) :
  (forall values : list T,
      Generator.genToArr fuel
        (Generator.arrToGen (E := E) (inr (map inr values)))
      = if Nat.ltb (List.length values) fuel then Some (inr values)
        else None)
  /\ (forall (values : list T) (e : E) (rest : list (E + T)),
        List.length values < fuel ->
        Generator.genToArr fuel
          (Generator.arrToGen
             (inr (List.app (map inr values) (inl e :: rest))))
        = Some (inl e))
  /\ (forall e : E,
        0 < fuel ->
        Generator.genToArr fuel (Generator.arrToGen (T := T) (inl e))
        = Some (inl e)).
Proof.
  split; [|split].
  - intros values; unfold Generator.genToArr;
      cbn [Generator.start Generator.arrToGen].
    destruct (Nat.ltb_spec (List.length values) fuel) as [Hlt|Hge];
      [|now rewrite collect_arrToGen_short].
    destruct fuel as [|fuel]; [lia|].
    rewrite <- (app_nil_r (map inr values)).
    replace (S fuel) with (fuel + 1) by lia.
    rewrite collect_arrToGen by lia.
    destruct (fuel + 1 - List.length values) as [|left] eqn:Hleft; [lia|].
    reflexivity.
  - intros values e rest Hlt; unfold Generator.genToArr;
      cbn [Generator.start Generator.arrToGen].
    destruct fuel as [|fuel]; [lia|].
    replace (S fuel) with (fuel + 1) by lia.
    rewrite collect_arrToGen by lia.
    destruct (fuel + 1 - List.length values) as [|left] eqn:Hleft; [lia|].
    reflexivity.
  - intros e Hfuel; destruct fuel as [|fuel]; [inversion Hfuel|reflexivity].
Qed.

Lemma genToArr_arrToGen_witness :
  Generator.genToArr 3
    (Generator.arrToGen
       (inr (List.app (map inr [10; 20]) (inl "rejected" :: [inr 30]))))
  = Some (inl "rejected")
  /\ Generator.genToArr 1 (Generator.arrToGen (T := nat) (inl "closed"))
     = Some (inl "closed").
Proof.
  split.
  - apply (proj1 (proj2 (genToArr_arrToGen (E := string) (T := nat) 3))
             [10; 20] "rejected" [inr 30]).
    repeat constructor.
  - apply (proj2 (proj2 (genToArr_arrToGen (E := string) (T := nat) 1))).
    constructor.
Defined.

(** What the loop holds already stays in front of what it collects. *)
Lemma collect_accumulates {E T : Type}
    (generator : Generator.AsyncIterable E T) :
  forall fuel s (pre arr : list T),
    Generator.collect fuel generator s (List.app pre arr)
    = match Generator.collect fuel generator s arr with
      | Some (inr out) => Some (inr (List.app pre out))
      | other => other
      end.
Proof.
  induction fuel as [|fuel IH]; intros s pre arr; [reflexivity|].
  cbn [Generator.collect].
  destruct (Generator.next generator s) as [[e|[item|]] s'];
    try reflexivity.
  rewrite <- app_assoc; apply IH.
Qed.

Lemma collect_mapGen {E T R C : Type}
    (iterable : Generator.AsyncIterable E T)
    (cb : T -> nat -> C -> (E + R) * C) (state0 : C) :
  forall fuel s index state items,
    Generator.collect fuel iterable s [] = Some (inr items) ->
    Generator.collect fuel (Generator.mapGen iterable cb state0)
      (s, index, state) []
    = Some (Generator.mapIndexed cb index state items).
Proof.
  induction fuel as [|fuel IH]; intros s index state items H;
    [discriminate H|].
  cbn [Generator.collect Generator.next Generator.mapGen] in *.
  destruct (Generator.next iterable s) as [[e|[item|]] s'].
  - discriminate H.
  - cbn [app] in H.
    rewrite (collect_accumulates iterable fuel s' [item] [] : 
               Generator.collect fuel iterable s' [item] = _) in H.
    destruct (Generator.collect fuel iterable s' []) as [[e|rest]|] eqn:Hrest;
      try discriminate H.
    injection H as <-.
    cbn [Generator.mapIndexed app].
    destruct (cb item index state) as [[e|mapped] state']; [reflexivity|].
    rewrite (collect_accumulates (Generator.mapGen iterable cb state0) fuel
               (s', S index, state') [mapped] [] :
               Generator.collect fuel _ _ [mapped] = _).
    rewrite (IH s' (S index) state' rest Hrest).
    destruct (Generator.mapIndexed cb (S index) state' rest); reflexivity.
  - injection H as <-; reflexivity.
Qed.

Lemma mapIndexed_pure {E T R C : Type} (f : T -> nat -> R) (state : C) :
  forall items index,
    Generator.mapIndexed (E := E)
      (fun item index state => (inr (f item index), state))
      index state items
    = inr (map (fun p => f (snd p) (fst p))
             (combine (seq index (List.length items)) items)).
Proof.
  induction items as [|item rest IH]; intros index; [reflexivity|].
  cbn [Generator.mapIndexed List.length seq combine map fst snd].
  now rewrite IH.
Qed.

(** X12. Collecting a mapped generator gives what [cb] makes of the items
    the source generator gives, called in their order with the indices 0,
    1, 2, ... and with the state object as the calls before left it; the
    first call of [cb] that throws rejects the collection with what it
    threw.  For a [cb] that neither throws nor changes the state, the
    result is the list of [cb item index]. *)
Theorem genToArr_mapGen {E T R C : Type}
    (iterable : Generator.AsyncIterable E T)
    (cb : T -> nat -> C -> (E + R) * C) (state0 : C)
    (fuel : nat) (items : list T)
    (Hitems : Generator.genToArr fuel iterable = Some (inr items)) :
  Generator.genToArr fuel (Generator.mapGen iterable cb state0)
  = Some (Generator.mapIndexed cb 0 state0 items)
  /\ forall f : T -> nat -> R,
       (forall item index state, cb item index state
                                 = (inr (f item index), state)) ->
       Generator.genToArr fuel (Generator.mapGen iterable cb state0)
       = Some (inr (map (fun p => f (snd p) (fst p))
                      (combine (seq 0 (List.length items)) items))).
Proof.
  assert (H : Generator.genToArr fuel (Generator.mapGen iterable cb state0)
              = Some (Generator.mapIndexed cb 0 state0 items)).
  { unfold Generator.genToArr in *; cbn [Generator.start Generator.mapGen].
    apply collect_mapGen; exact Hitems. }
  split; [exact H|].
  intros f Hcb; rewrite H, <- (mapIndexed_pure (E := E) f state0 items 0).
  f_equal; clear H Hitems; generalize 0 state0.
  induction items as [|item rest IH]; intros index state; [reflexivity|].
  cbn [Generator.mapIndexed]; rewrite Hcb, IH; reflexivity.
Qed.

Lemma genToArr_mapGen_witness :
  Generator.genToArr 3
    (Generator.mapGen
       (Generator.arrToGen (E := string) (inr [inr 10; inr 20]))
       (fun item index (state : unit) => (inr (item + index), state)) tt)
  = Some (Generator.mapIndexed
            (fun item index (state : unit) => (inr (item + index), state))
            0 tt [10; 20]).
Proof.
  refine (proj1 (genToArr_mapGen
                   (Generator.arrToGen (E := string) (inr [inr 10; inr 20]))
                   (fun item index (state : unit) =>
                      (inr (item + index), state)) tt
                   3 [10; 20] _)).
  reflexivity.
Defined.

(* ===================================================================== *)
(** ** Files of the CLI *)
(* ===================================================================== *)

Section FilesystemFacts.

Variable h : Filesystem.Host.

Lemma ancestor_succ (start : string) (k : nat) :
  Filesystem.ancestor h start (S k)
  = Filesystem.ancestor h (Filesystem.path_dirname h start) k.
Proof.
  unfold Filesystem.ancestor; apply Nat.iter_succ_r.
Qed.

Lemma passedOver_succ (w : Filesystem.World h) (start : string) (k : nat) :
  start <> Filesystem.path_root h start ->
  Filesystem.existsSync h w (Filesystem.path_join h start "package.json")
  = false ->
  Filesystem.passedOver h w (Filesystem.path_dirname h start) k ->
  Filesystem.passedOver h w start (S k).
Proof.
  intros Hroot Hpkg Hrest [|j] Hj.
  - split; [exact Hroot | exact Hpkg].
  - rewrite ancestor_succ; apply Hrest; lia.
Qed.

Lemma findClosestPackageDirectory_found (w : Filesystem.World h) :
  forall fuel start d,
    Filesystem.findClosestPackageDirectory h fuel w start = Some (Some d) ->
    exists k,
      k < fuel
      /\ d = Filesystem.ancestor h start k
      /\ d <> Filesystem.path_root h d
      /\ Filesystem.existsSync h w (Filesystem.path_join h d "package.json")
         = true
      /\ Filesystem.passedOver h w start k.
Proof.
  induction fuel as [|fuel IH]; intros start d H; [discriminate H|].
  cbn [Filesystem.findClosestPackageDirectory] in H.
  destruct (String.eqb_spec start (Filesystem.path_root h start))
    as [Hroot|Hroot]; cbn [negb] in H; [discriminate H|].
  destruct (Filesystem.existsSync h w
              (Filesystem.path_join h start "package.json")) eqn:Hpkg.
  - injection H as <-; exists 0.
    split; [lia|]. split; [reflexivity|]. split; [exact Hroot|].
    split; [exact Hpkg|]. intros j Hj; lia.
  - destruct (IH _ _ H) as [k [Hk [Hd [Hdroot [Hdpkg Hpassed]]]]].
    exists (S k); split; [lia|]. split; [now rewrite ancestor_succ|].
    split; [exact Hdroot|]. split; [exact Hdpkg|].
    now apply passedOver_succ.
Qed.

Lemma findClosestPackageDirectory_null (w : Filesystem.World h) :
  forall fuel start,
    Filesystem.findClosestPackageDirectory h fuel w start = Some None ->
    exists k,
      k < fuel
      /\ Filesystem.ancestor h start k
         = Filesystem.path_root h (Filesystem.ancestor h start k)
      /\ Filesystem.passedOver h w start k.
Proof.
  induction fuel as [|fuel IH]; intros start H; [discriminate H|].
  cbn [Filesystem.findClosestPackageDirectory] in H.
  destruct (String.eqb_spec start (Filesystem.path_root h start))
    as [Hroot|Hroot]; cbn [negb] in H.
  - exists 0; split; [lia|]. split; [exact Hroot|]. intros j Hj; lia.
  - destruct (Filesystem.existsSync h w
                (Filesystem.path_join h start "package.json")) eqn:Hpkg;
      [discriminate H|].
    destruct (IH _ H) as [k [Hk [Hkroot Hpassed]]].
    exists (S k); split; [lia|]. split; [now rewrite ancestor_succ|].
    now apply passedOver_succ.
Qed.

Lemma findClosestPackageDirectory_ends (w : Filesystem.World h) :
  forall k fuel start,
    Filesystem.ancestor h start k
    = Filesystem.path_root h (Filesystem.ancestor h start k) ->
    k < fuel ->
    Filesystem.findClosestPackageDirectory h fuel w start <> None.
Proof.
  induction k as [|k IH]; intros fuel start Hroot Hfuel;
    (destruct fuel as [|fuel]; [lia|]);
    cbn [Filesystem.findClosestPackageDirectory].
  - cbn in Hroot; rewrite <- Hroot, String.eqb_refl; discriminate.
  - destruct (negb _); [|discriminate].
    destruct (Filesystem.existsSync h w _); [discriminate|].
    rewrite ancestor_succ in Hroot; apply IH; [exact Hroot | lia].
Qed.

(** X13. [findClosestPackageDirectory] returns the first directory on the
    way up from the start, the start included, that holds a
    [package.json], and that directory is no root.  It returns [null] when
    the way up reaches a root with no [package.json] before it; a
    [package.json] in the root itself is not looked at.  The loop ends as
    soon as [path.dirname] has led to a root. *)
Theorem findClosestPackageDirectory_closest (w : Filesystem.World h)
    (fuel : nat) (start : string) :
  (forall d,
      Filesystem.findClosestPackageDirectory h fuel w start = Some (Some d) ->
      exists k,
        k < fuel
        /\ d = Filesystem.ancestor h start k
        /\ d <> Filesystem.path_root h d
        /\ Filesystem.existsSync h w
             (Filesystem.path_join h d "package.json") = true
        /\ Filesystem.passedOver h w start k)
  /\ (Filesystem.findClosestPackageDirectory h fuel w start = Some None ->
      exists k,
        k < fuel
        /\ Filesystem.ancestor h start k
           = Filesystem.path_root h (Filesystem.ancestor h start k)
        /\ Filesystem.passedOver h w start k)
  /\ (forall k,
        Filesystem.ancestor h start k
        = Filesystem.path_root h (Filesystem.ancestor h start k) ->
        k < fuel ->
        Filesystem.findClosestPackageDirectory h fuel w start <> None).
Proof.
  split; [|split].
  - apply findClosestPackageDirectory_found.
  - apply findClosestPackageDirectory_null.
  - intros k; apply findClosestPackageDirectory_ends.
Qed.

(** X14. [bundleTsFile] calls esbuild only when a package directory is
    found.  When there is none, [path.join(null, 'tsconfig.json')] throws
    a type error and nothing is built; when the [package.json] cannot be
    read, what the read throws is thrown.  When it holds an object, esbuild
    is called once, with the format [esm] exactly when [type] is the
    string [module], and with the [tsconfig.json] of that directory when
    there is one. *)
Theorem bundleTsFile_needs_package_directory (fuel : nat)
    (filename outpath : string) (w : Filesystem.World h) :
  (Filesystem.findClosestPackageDirectory h fuel w (Filesystem.cwd h w)
   = Some None ->
   Filesystem.bundleTsFile h fuel filename outpath w
   = Some (w, inl Filesystem.NodeTypeError))
  /\ (forall packagePath,
        Filesystem.findClosestPackageDirectory h fuel w (Filesystem.cwd h w)
        = Some (Some packagePath) ->
        packagePath <> "" ->
        (forall e,
            Filesystem.readJSON h w
              (Filesystem.path_join h packagePath "package.json") = inl e ->
            Filesystem.bundleTsFile h fuel filename outpath w
            = Some (w, inl e))
        /\ (forall fields,
              Filesystem.readJSON h w
                (Filesystem.path_join h packagePath "package.json")
              = inr (JS.Obj fields) ->
              Filesystem.bundleTsFile h fuel filename outpath w
              = Some (Filesystem.buildSync h
                        {| Filesystem.entryPoints := [filename];
                           Filesystem.outfile := outpath;
                           Filesystem.bundle := true;
                           Filesystem.platform := "node";
                           Filesystem.target := "node20";
                           Filesystem.format :=
                             if JS.equals_string (JS.lookup fields "type")
                                  "module"
                             then "esm" else "cjs";
                           Filesystem.tsconfig :=
                             if Filesystem.existsSync h w
                                  (Filesystem.path_join h packagePath
                                     "tsconfig.json")
                             then Some (Filesystem.path_join h packagePath
                                          "tsconfig.json")
                             else None |} w))).
Proof.
  unfold Filesystem.bundleTsFile; split.
  - intros ->; reflexivity.
  - intros packagePath -> Hname.
    apply String.eqb_neq in Hname.
    unfold Filesystem.isPackageEsm, Filesystem.getModuleType.
    cbn [JS.truthy]; rewrite Hname; cbn [negb]; split.
    + intros e ->; reflexivity.
    + intros fields ->; cbn [Filesystem.property JS.get].
      destruct (JS.equals_string (JS.lookup fields "type") "module");
        reflexivity.
Qed.

End FilesystemFacts.

Lemma findClosestPackageDirectory_closest_witness :
  exists k,
    k < 3
    /\ "/repo" = Filesystem.ancestor exampleHost "/repo/app" k
    /\ "/repo" <> Filesystem.path_root exampleHost "/repo"
    /\ Filesystem.existsSync exampleHost ["/repo/package.json"]
         (Filesystem.path_join exampleHost "/repo" "package.json") = true
    /\ Filesystem.passedOver exampleHost ["/repo/package.json"]
         "/repo/app" k.
Proof.
  apply (proj1 (findClosestPackageDirectory_closest exampleHost
                  ["/repo/package.json"] 3 "/repo/app") "/repo").
  reflexivity.
Defined.

Lemma bundleTsFile_needs_package_directory_witness :
  Filesystem.bundleTsFile exampleHost 3 "/repo/app/schema.ts"
    "/repo/app/tmp/_schema.js" []
  = Some ([], inl Filesystem.NodeTypeError).
Proof.
  apply (proj1 (bundleTsFile_needs_package_directory exampleHost 3
                  "/repo/app/schema.ts" "/repo/app/tmp/_schema.js" [])).
  reflexivity.
Defined.

Lemma substring_all (s : string) :
  String.substring 0 (String.length s) s = s.
Proof.
  induction s as [|c s IH]; cbn; [reflexivity | now rewrite IH].
Qed.

Lemma substring_suffix (pre suffix : string) :
  String.substring (String.length pre) (String.length suffix)
    (pre ++ suffix) = suffix.
Proof.
  induction pre as [|c pre IH]; cbn [String.length append];
    [apply substring_all | exact IH].
Qed.

Lemma substring_split (s : string) :
  forall n, n <= String.length s ->
    String.substring 0 n s ++ String.substring n (String.length s - n) s = s.
Proof.
  induction s as [|c s IH]; intros [|n] Hn; cbn [String.length] in *;
    try lia; try reflexivity.
  - cbn [String.substring append Nat.sub]; now rewrite substring_all.
  - cbn [String.substring append Nat.sub]; rewrite IH by lia; reflexivity.
Qed.

(** [endsWith] holds exactly for the strings that are something followed
    by the suffix. *)
Lemma endsWith_spec (s suffix : string) :
  Filesystem.endsWith s suffix = true <-> exists pre, s = pre ++ suffix.
Proof.
  unfold Filesystem.endsWith; rewrite andb_true_iff, Nat.leb_le,
    String.eqb_eq; split.
  - intros [Hle Hsub].
    exists (String.substring 0 (String.length s - String.length suffix) s).
    pose proof (substring_split s
                  (String.length s - String.length suffix)) as H.
    replace (String.length s - (String.length s - String.length suffix))
      with (String.length suffix) in H by lia.
    rewrite Hsub in H; symmetry; apply H; lia.
  - intros [pre ->]; rewrite length_append; split; [lia|].
    replace (String.length pre + String.length suffix - String.length suffix)
      with (String.length pre) by lia.
    apply substring_suffix.
Qed.

Section LoadingFacts.

Variable h : Filesystem.Host.


(** X15. [loadTsModule] throws [File must be a .ts file] for every path
    that does not end in [.ts], and touches nothing then: no file is
    looked for, no directory made or removed. *)
Theorem loadTsModule_rejects_other_files (fuel : nat) (filepath : string)
    (w : Filesystem.World h)
    (Hother : forall pre, filepath <> pre ++ ".ts") :
  Filesystem.loadTsModule h fuel filepath w
  = Some (w, inl Filesystem.FileMustBeTs).
Proof.
  unfold Filesystem.loadTsModule.
  destruct (Filesystem.endsWith filepath ".ts") eqn:Hends; [|reflexivity].
  apply endsWith_spec in Hends; destruct Hends as [pre Hpre].
  now contradiction (Hother pre).
Qed.



End LoadingFacts.

Lemma loadTsModule_rejects_other_files_witness :
  Filesystem.loadTsModule exampleHost 3 "schema.js" ["/repo/app/tmp"]
  = Some (["/repo/app/tmp"], inl Filesystem.FileMustBeTs).
Proof.
  apply (loadTsModule_rejects_other_files exampleHost 3 "schema.js").
  intros pre H.
  assert (Hends : Filesystem.endsWith "schema.js" ".ts" = true).
  { apply endsWith_spec; exists pre; exact H. }
  vm_compute in Hends; discriminate Hends.
Defined.



Lemma generateAttributeSchema_nested_path_witness :
  exists before after,
    generateAttributeSchema (["address"] ++ ["city"])
      (ValueAttribute "string" {| nullable := None; default := JS.Undefined |})
      false ""
    = ret (before
           ++ indented "" (List.length ["address"])
           ++ "'" ++ "city" ++ "': " ++ "S.String()" ++ "," ++ JS.newline
           ++ after)
    /\ (["address"] = [] -> before = "" /\ after = "").
Proof.
  apply (proj2 (proj2 (generateAttributeSchema_nested_path
                         (ValueAttribute "string"
                            {| nullable := None; default := JS.Undefined |})
                         false) "S.String()" eq_refl)).
Defined.

(* ===================================================================== *)
(** ** The subquery and the frame of the module *)
(* ===================================================================== *)

(** X4. The subquery literal holds, in this order, a [where] member when
    the query has the key, the empty list included, a [limit] member when
    the query has a limit that is not zero, and an [order] member when the
    query has the key; the members are joined by a comma and a space, and
    no key gives the empty braces. *)
Theorem subQueryToString_members (subquery : QueryParams) :
  subQueryToString subquery
  = "{"
    ++ String.concat ", "
         (List.app
            match where_ subquery with
            | Some clauses =>
                ["where: " ++ JS.stringify_text (where_value clauses)]
            | None => []
            end
            (List.app
               match limit subquery with
               | Some n => if (n =? 0)%Z then []
                           else ["limit: " ++ JS.number_to_string n]
               | None => []
               end
               match order subquery with
               | Some pairs =>
                   ["order: " ++ JS.stringify_text (order_value pairs)]
               | None => []
               end))
    ++ "}"
  /\ (where_ subquery = Some [] ->
      In "where: []" (subQueryMembers subquery))
  /\ (where_ subquery = None -> limit subquery = None ->
      order subquery = None -> subQueryToString subquery = "{}").
Proof.
  unfold subQueryToString; rewrite subQueryMembers_present.
  split; [reflexivity|]. split.
  - intros ->; left; reflexivity.
  - intros -> -> ->; reflexivity.
Qed.

Lemma subQueryToString_members_witness :
  In "where: []"
    (subQueryMembers {| where_ := Some []; limit := Some 0%Z;
                        order := None; others := [] |}).
Proof.
  apply (proj1 (proj2 (subQueryToString_members
                         {| where_ := Some []; limit := Some 0%Z;
                            order := None; others := [] |}))).
  reflexivity.
Defined.

(** X18. Whatever the schema JSON is, a module text that is returned is
    the header comment, the import line and [export const schema = ]
    followed by an object literal whose braces stand at the start of their
    lines, a semicolon and one line feed: [trim] takes nothing away from
    what the collections gave. *)
Theorem module_text_frame (schemaJSON : option SchemaJSON) (out : string)
    (Hout : schemaFileContentFromJSON schemaJSON = ret out) :
  exists body,
    out = "/**" ++ JS.newline
          ++ " * This file is auto-generated by the Triplit CLI."
          ++ JS.newline
          ++ " */ " ++ JS.newline
          ++ JS.newline
          ++ "import { Schema as S } from '@triplit/db';" ++ JS.newline
          ++ "export const schema = {" ++ JS.newline
          ++ body ++ "};" ++ JS.newline.
Proof.
  rewrite schemaFileContentFromJSON_text in Hout.
  apply bind_ret_inv in Hout; destruct Hout as [content [Hcontent Hout]].
  apply ret_inj in Hout.
  rewrite collectionsDefinitionToFileContent_pieces in Hcontent.
  apply bind_ret_inv in Hcontent; destruct Hcontent as [texts [_ Hc]].
  apply ret_inj in Hc; exists (String.concat "" texts).
  subst out content; unfold moduleText.
  change (slice_0_minus2 indentation) with "".
  cbn [append]; rewrite !append_assoc; reflexivity.
Qed.

Lemma module_text_frame_witness :
  exists body,
    moduleText ("{" ++ JS.newline ++ "}")
    = "/**" ++ JS.newline
      ++ " * This file is auto-generated by the Triplit CLI."
      ++ JS.newline
      ++ " */ " ++ JS.newline
      ++ JS.newline
      ++ "import { Schema as S } from '@triplit/db';" ++ JS.newline
      ++ "export const schema = {" ++ JS.newline
      ++ body ++ "};" ++ JS.newline.
Proof.
  apply (module_text_frame None).
  reflexivity.
Defined.

(* ===================================================================== *)
(** ** Worked examples *)
(* ===================================================================== *)

Example ToString_number : JS.ToString (JS.Num (-12)) = "-12".
Proof. reflexivity. Qed.

Example ToString_array :
  JS.ToString (JS.Arr [JS.Str "a"; JS.Null; JS.Arr [JS.Num 1; JS.Num 2]])
  = "a,,1,2".
Proof. reflexivity. Qed.

Example stringify_where :
  JS.stringify (JS.Arr [JS.Arr [JS.Str "id"; JS.Str "="; JS.Num 42]])
  = Some ("[[" ++ JS.dquote ++ "id" ++ JS.dquote ++ ","
          ++ JS.dquote ++ "=" ++ JS.dquote ++ ",42]]").
Proof. reflexivity. Qed.

Example stringify_escapes :
  JS.quote ("a" ++ JS.dquote ++ JS.newline ++ JS.backslash)
  = JS.dquote ++ "a" ++ JS.backslash ++ JS.dquote ++ JS.backslash ++ "n"
    ++ JS.backslash ++ JS.backslash ++ JS.dquote.
Proof. reflexivity. Qed.

Example default_now_args :
  defaultValueToString (FunctionCall "now" [JS.Num 1; JS.Str "a"])
  = ret ("S.Default.now(1, " ++ JS.dquote ++ "a" ++ JS.dquote ++ ")").
Proof. reflexivity. Qed.

Example default_args_not_an_array :
  defaultValueToString
    (JS.Obj [("func", JS.Str "now"); ("args", JS.Num 1)])
  = throw TypeError.
Proof. reflexivity. Qed.

Example default_without_args :
  defaultValueToString (JS.Obj [("func", JS.Str "uuid")])
  = ret "S.Default.uuid()".
Proof. reflexivity. Qed.

Example default_array :
  defaultValueToString (JS.Arr [JS.Num 1]) = throw InvalidDefaultFunctionName.
Proof. reflexivity. Qed.

Example message_invalid_type :
  message (InvalidType "uuid") = "Invalid type: uuid".
Proof. reflexivity. Qed.

Example options_both :
  valueOptionsToString {| nullable := Some false; default := JS.Num 3 |}
  = ret "{nullable: false, default: 3}".
Proof. reflexivity. Qed.

Example set_of_dates :
  schemaItemToString
    (SetAttribute
       (ValueAttribute "date" {| nullable := None; default := JS.Undefined |})
       {| nullable := Some true; default := JS.Undefined |}) true
  = ret "S.Optional(S.Set(S.Date(),{nullable: true}))".
Proof. reflexivity. Qed.

Example split_lines_three :
  split_lines ("ab" ++ JS.newline ++ "cd" ++ JS.newline) = ["ab"; "cd"; ""].
Proof. reflexivity. Qed.

Example module_with_rules :
  schemaFileContentFromJSON
    (Some {| version := 0;
             collections :=
               Some [("todos",
                      {| schema :=
                           {| properties :=
                                [("b", ValueAttribute "string"
                                         {| nullable := None;
                                            default := JS.Undefined |});
                                 ("a", QueryAttribute
                                         {| collectionName := "users";
                                            queryParams :=
                                              byIdParams (JS.Str "42") |}
                                         "one")];
                              optional := Some ["b"; "a"] |};
                         rules := JS.Obj [("read", JS.Arr [JS.Bool true])] |})]
          |})
  = ret (moduleText
           ("{" ++ JS.newline
            ++ "  'todos': {" ++ JS.newline
            ++ "    schema: S.Schema({" ++ JS.newline
            ++ "      'b': S.Optional(S.String())," ++ JS.newline
            ++ "      'a': S.RelationById('users', '42')," ++ JS.newline
            ++ "    })," ++ JS.newline
            ++ "    rules: {" ++ JS.newline
            ++ "      " ++ JS.dquote ++ "read" ++ JS.dquote ++ ": ["
            ++ JS.newline
            ++ "        true" ++ JS.newline
            ++ "      ]" ++ JS.newline
            ++ "    }  }," ++ JS.newline
            ++ "}")).
Proof. reflexivity. Qed.
